(** * github-stats: merged pull-request statistics

    A shallow embedding of the two scripts of the repository:
    - [src/index.js]          (filter on [mergedAt], display listing, median, p90);
    - [src/unnamed/part_000]  (filter on [createdAt], no listing, no median/p90).

    Timestamps are the millisecond values that [parse]/[new Date] give for the
    ISO strings of the API ([getTime]); a duration is their difference, an
    integer.  Numbers that leave the integers (mean, median) are rationals; the
    operands stay far below 2^53, where the script's doubles are exact. *)

From Stdlib Require Import ZArith QArith Lia Ascii.
From stdpp Require Import gmap strings list sorting.

Local Open Scope Z_scope.

(** ** Data model *)

Definition timestamp := Z.

Inductive PullRequestState := MERGED | OPEN | CLOSED.

Record Author := { login : string }.

(** A node of [data.repository.pullRequests.nodes], with the fields the query
    selects, each of them present: a node without an author (a deleted
    account) or with a date that does not parse is not a value of this type. *)
Record PullRequest := {
  number : Z;
  author : Author;
  state : PullRequestState;
  mergedAt : timestamp;
  createdAt : timestamp;
  title : string;
  changedFiles : Z
}.

(** [new Date(pr.mergedAt) - new Date(pr.createdAt)] *)
Definition openTime (pr : PullRequest) : Z := mergedAt pr - createdAt pr.

(** An element of [percentileVals]: [{...pr, openTime}]. *)
Record TaggedPR := { tagged_pr : PullRequest; tagged_openTime : Z }.

(** The numbers the statistics produce. *)
Inductive JSNumber :=
| Fin (q : Q)
| Infinity (negative : bool)
| NaN.

(** [a / b] on integer operands: the quotient in lowest terms, and what
    JavaScript gives for a zero divisor. *)
Definition divide (a b : Z) : JSNumber :=
  if b =? 0 then
    (if a =? 0 then NaN else Infinity (a <? 0))
  else Fin (Qred (inject_Z a / inject_Z b)).

(** ** date-fns comparisons (strict, on [getTime]) *)

Definition isBefore (date dateToCompare : timestamp) : bool := date <? dateToCompare.
Definition isAfter (date dateToCompare : timestamp) : bool := dateToCompare <? date.

(** ** Arrays *)

Section Array_sort.
Context {A : Type} (compareFn : A -> A -> Z).

Fixpoint sort_insert (x : A) (l : list A) : list A :=
  match l with
  | [] => [x]
  | y :: l' => if compareFn x y <=? 0 then x :: l else y :: sort_insert x l'
  end.

(** [Array.prototype.sort(compareFn)]: the stable ascending arrangement. *)
Definition Array_sort (l : list A) : list A := foldr sort_insert [] l.
End Array_sort.

(** The comparators of the scripts subtract a numeric key of their arguments. *)
Definition by_key {A} (key : A -> Z) (a b : A) : Z := key a - key b.
Definition key_le {A} (key : A -> Z) (a b : A) : Prop := key a <= key b.

(** [values[i]], [None] standing for [undefined]. *)
Definition Array_get {A} (values : list A) (i : Z) : option A :=
  if i <? 0 then None else values !! Z.to_nat i.

(** ** [median] (index.js, lines 15-24)

    The sort is in place; [main] hands in the fresh array [allTimes] and does
    not read it again, so the sorted array is not returned here.  An index
    outside the array reads [undefined], and arithmetic on it gives [NaN];
    that needs an empty array, which takes the even branch. *)

Definition median (values : list Z) : JSNumber :=
  let values := Array_sort (fun a b => a - b) values in
  let half := Z.of_nat (length values) / 2 in
  if negb (Z.of_nat (length values) mod 2 =? 0) then
    match Array_get values half with
    | Some v => Fin (inject_Z v)
    | None => NaN
    end
  else
    match Array_get values (half - 1), Array_get values half with
    | Some a, Some b => divide (a + b) 2
    | _, _ => NaN
    end.

(** ** Shortest, longest, total, mean
    (index.js 152-183, part_000 96-127: the same text in both files) *)

(** [arr.reduce(callback, initialValue)] *)
Definition Array_reduce {A B} (callback : B -> A -> B) (initialValue : B) (arr : list A) : B :=
  fold_left callback arr initialValue.

(** The accumulator starts as [null] ([None]); a pull request is an object,
    hence truthy, so [!a] holds exactly on [null]. *)
Definition shortest_step (a : option PullRequest) (b : PullRequest) : option PullRequest :=
  match a with
  | None => Some b
  | Some a => if openTime b <? openTime a then Some b else Some a
  end.

Definition longest_step (a : option PullRequest) (b : PullRequest) : option PullRequest :=
  match a with
  | None => Some b
  | Some a => if openTime a <? openTime b then Some b else Some a
  end.

Definition shortest (prs : list PullRequest) : option PullRequest :=
  Array_reduce shortest_step None prs.

Definition longest (prs : list PullRequest) : option PullRequest :=
  Array_reduce longest_step None prs.

Definition total (prs : list PullRequest) : Z :=
  Array_reduce (fun a b => a + openTime b) 0 prs.

Definition meanInMs (prs : list PullRequest) : JSNumber :=
  divide (total prs) (Z.of_nat (length prs)).

(** ** 90th percentile (index.js 200-209) *)

Definition percentileVals (prs : list PullRequest) : list TaggedPR :=
  map (fun pr => {| tagged_pr := pr; tagged_openTime := openTime pr |}) prs.

(** Modelled from the spec: the [percentile] package is a dependency whose text
    is not part of the repository; the spec calls it a nearest-rank method over
    the tagged list.  [percentile(p, list, fn)] sorts a copy of [list] by [fn]
    and returns the element of rank [ceil(length * p / 100)], the first element
    for [p = 0]; [None] is the [undefined] read past the end of an empty list. *)
Definition percentile {A} (p : Z) (list : list A) (fn : A -> Z) : option A :=
  let list := Array_sort (fun a b => fn a - fn b) list in
  if p =? 0 then Array_get list 0
  else
    let kIndex := (Z.of_nat (length list) * p + 99) / 100 - 1 in
    Array_get list kIndex.

Definition p90 (prs : list PullRequest) : option TaggedPR :=
  percentile 90 (percentileVals prs) tagged_openTime.

(** ** Count by author (index.js 137-147, part_000 80-92)

    [owners] is a plain object used as a map from login to count. *)

(** What a property of [owners] can hold. *)
Inductive Count := Cnt (n : Z) | CntNaN.

(** The own properties of a plain object, in order of creation. *)
Definition JSObject := list (string * Count).

(** The properties every plain object inherits from [Object.prototype]. *)
Definition Object_prototype : list string :=
  [ "constructor"; "__defineGetter__"; "__defineSetter__"; "hasOwnProperty";
    "__lookupGetter__"; "__lookupSetter__"; "isPrototypeOf";
    "propertyIsEnumerable"; "toString"; "valueOf"; "__proto__";
    "toLocaleString" ]%string.

Inductive Property :=
| Own (v : Count)
| Inherited
| Undefined.

Fixpoint getOwnProperty (o : JSObject) (key : string) : option Count :=
  match o with
  | [] => None
  | (k, v) :: o' => if String.eqb k key then Some v else getOwnProperty o' key
  end.

(** [o[key]]: the own property, else the one found on the prototype. *)
Definition Get (o : JSObject) (key : string) : Property :=
  match getOwnProperty o key with
  | Some v => Own v
  | None => if bool_decide (key ∈ Object_prototype) then Inherited else Undefined
  end.

(** [ToBoolean]: [undefined], [0] and [NaN] are falsy, a number other than 0
    and an inherited function or object are truthy. *)
Definition truthy (p : Property) : bool :=
  match p with
  | Own (Cnt n) => negb (n =? 0)
  | Own CntNaN => false
  | Inherited => true
  | Undefined => false
  end.

(** The value of [p + 1]; an inherited function or object converts to [NaN]. *)
Definition increment (p : Property) : Count :=
  match p with
  | Own (Cnt n) => Cnt (n + 1)
  | _ => CntNaN
  end.

Fixpoint updateOwnProperty (o : JSObject) (key : string) (v : Count) : JSObject :=
  match o with
  | [] => []
  | (k, w) :: o' =>
      if String.eqb k key then (k, v) :: o' else (k, w) :: updateOwnProperty o' key v
  end.

(** [o[key] = v]: an own property keeps its place; a new one is created last,
    except under the key [__proto__], whose inherited setter drops a number. *)
Definition Set_ (o : JSObject) (key : string) (v : Count) : JSObject :=
  match getOwnProperty o key with
  | Some _ => updateOwnProperty o key v
  | None => if String.eqb key "__proto__" then o else o ++ [(key, v)]
  end.

Definition countAuthor (owners : JSObject) (pr : PullRequest) : JSObject :=
  let login := login (author pr) in
  if truthy (Get owners login) then Set_ owners login (increment (Get owners login))
  else Set_ owners login (Cnt 1).

Definition authors (prs : list PullRequest) : JSObject :=
  Array_reduce countAuthor [] prs.

(** *** Order of the own keys *)

Definition digit (c : ascii) : option Z :=
  let n := Z.of_N (N_of_ascii c) in
  if (48 <=? n) && (n <=? 57) then Some (n - 48) else None.

Fixpoint digits (acc : Z) (s : string) : option Z :=
  match s with
  | EmptyString => Some acc
  | String c s' =>
      match digit c with
      | Some d => digits (10 * acc + d) s'
      | None => None
      end
  end.

(** A key is an array index when it is the decimal text, without a leading
    zero, of an integer from 0 to 2^32 - 2. *)
Definition arrayIndex (key : string) : option Z :=
  match key with
  | EmptyString => None
  | String c rest =>
      if Ascii.eqb c "0" && negb (String.eqb rest "") then None
      else
        match digits 0 key with
        | Some n => if n <? 2 ^ 32 - 1 then Some n else None
        | None => None
        end
  end.

Definition isArrayIndex (key : string) : bool :=
  match arrayIndex key with Some _ => true | None => false end.

Definition indexValue (key : string) : Z := default 0 (arrayIndex key).

(** Own keys as [Object.keys] lists them: array indices in ascending numeric
    order, then the other keys in order of creation. *)
Definition ownKeys (o : JSObject) : list string :=
  let ks := map fst o in
  Array_sort (fun a b => indexValue a - indexValue b) (filter (fun k => isArrayIndex k = true) ks)
  ++ filter (fun k => isArrayIndex k = false) ks.

(** lodash/fp [keys], [values], [zip] *)
Definition keys (o : JSObject) : list string := ownKeys o.

Definition values (o : JSObject) : list Count :=
  omap (getOwnProperty o) (ownKeys o).

Definition zip {A B} (a : list A) (b : list B) : list (A * B) := combine a b.

Definition authorRows (prs : list PullRequest) : list (string * Count) :=
  zip (keys (authors prs)) (values (authors prs)).

(** *** The mapping the counts are meant to be *)

Definition logins (prs : list PullRequest) : list string :=
  map (fun pr => login (author pr)) prs.

(** The distinct elements of a list, each at its first occurrence. *)
Fixpoint firstSeen (l : list string) : list string :=
  match l with
  | [] => []
  | x :: l' => x :: filter (fun y => y <> x) (firstSeen l')
  end.

(** How many elements of [l] equal [k]. *)
Definition occurrences (k : string) (l : list string) : Z :=
  Z.of_nat (length (filter (fun x => x = k) l)).

(** The object that holds [f k] under each key [k] of [ks], created in the
    order of [ks]. *)
Definition entries (f : string -> Z) (ks : list string) : JSObject :=
  map (fun k => (k, Cnt (f k))) ks.

(** ** Effects: exceptions, the array store, the console *)

Record JSError := { name : string; message : string }.

(** A value handed to [console.log].  Formatting is the work of libraries
    outside the repository and is kept symbolic: [FormatDate d] is
    [format(d, 'YYYY-MM-DD')], and [Distance ms unit] is
    [distanceInWordsStrict(d, d + ms, {unit})], which depends on the two dates
    through their difference only. *)
Inductive Text :=
| Lit (s : string)
| Num (n : Z)
| CountText (c : Count)
| FormatDate (d : timestamp)
| Distance (ms : JSNumber) (unit : option string)
| Concat (a b : Text).

Inductive Output :=
| Log (args : list Text)
| Error (e : JSError).

(** Arrays of pull requests are objects: [nodes], [prs] and [f] are references
    into a store, [map] and [filter] allocate, [sort] writes in place.  The
    arrays [allTimes] and [percentileVals] are each built for one call and not
    read again; they are passed by value. *)
Definition loc := nat.

Record World := { heap : list (list PullRequest); console : list Output }.

Inductive Completion (A : Type) :=
| Normal (a : A)
| Throw (e : JSError).
Arguments Normal {A} a.
Arguments Throw {A} e.

Definition M (A : Type) : Type := World -> Completion A * World.

Definition ret {A} (a : A) : M A := fun w => (Normal a, w).

Definition bind {A B} (m : M A) (k : A -> M B) : M B :=
  fun w =>
    match m w with
    | (Normal a, w') => k a w'
    | (Throw e, w') => (Throw e, w')
    end.

Definition throw {A} (e : JSError) : M A := fun w => (Throw e, w).

Declare Scope js_scope.
Delimit Scope js_scope with js.
Notation "'let*' x := m 'in' k" := (bind m (fun x => k))
  (at level 10, x name, m at level 100, k at level 200) : js_scope.
Notation "m ;; k" := (bind m (fun _ => k))
  (at level 100, k at level 200, right associativity) : js_scope.

Definition alloc (l : list PullRequest) : M loc :=
  fun w => (Normal (length (heap w)), {| heap := heap w ++ [l]; console := console w |}).

Definition deref (r : loc) : M (list PullRequest) :=
  fun w =>
    match heap w !! r with
    | Some l => (Normal l, w)
    | None => (Throw {| name := "ReferenceError"; message := "dangling array" |}, w)
    end.

Definition assign (r : loc) (l : list PullRequest) : M unit :=
  fun w => (Normal tt, {| heap := <[r := l]> (heap w); console := console w |}).

Definition console_log (args : list Text) : M unit :=
  fun w => (Normal tt, {| heap := heap w; console := console w ++ [Log args] |}).

Definition console_error (e : JSError) : M unit :=
  fun w => (Normal tt, {| heap := heap w; console := console w ++ [Error e] |}).

Fixpoint each {A} (f : A -> M unit) (l : list A) : M unit :=
  match l with
  | [] => ret tt
  | x :: l' => bind (f x) (fun _ => each f l')
  end.

Section ArrayMethods.
Local Open Scope js_scope.

(** [arr.filter(callback)]: a new array. *)
Definition Array_filter (arr : loc) (callback : PullRequest -> bool) : M loc :=
  let* l := deref arr in alloc (List.filter callback l).

(** [arr.map(callback)] with pull requests as results: a new array. *)
Definition Array_map (arr : loc) (callback : PullRequest -> PullRequest) : M loc :=
  let* l := deref arr in alloc (map callback l).

(** [arr.sort(compareFn)]: sorts [arr] itself and returns it. *)
Definition Array_sort_in_place (arr : loc) (compareFn : PullRequest -> PullRequest -> Z) : M loc :=
  let* l := deref arr in
  assign arr (Array_sort compareFn l);;
  ret arr.

(** [arr.length] *)
Definition Array_length (arr : loc) : M Z :=
  let* l := deref arr in ret (Z.of_nat (length l)).

(** [o.field] on the result of a reduce or of [percentile]: reading a
    property of [null] or [undefined] throws a [TypeError] (the message is the
    engine's, here in the wording of the Node releases of the scripts' time). *)
Definition member {A} (o : option A) (nothing field : string) : M A :=
  match o with
  | Some v => ret v
  | None =>
      throw {| name := "TypeError";
               message := "Cannot read property '" +:+ field +:+ "' of " +:+ nothing |}
  end.
End ArrayMethods.

(** ** [logBlock] (index.js 26-50)

    The two arrays a block closes over are carried in a record; [log] and
    [logEmpty] return the block with the line added, [end] writes it out. *)

Record LogBlock := {
  t : string;
  lines : list (string * list Text);
  emptyLines : list (list Text)
}.

Definition logBlock (t : string) : LogBlock := {| t := t; lines := []; emptyLines := [] |}.

Definition log (b : LogBlock) (name : string) (rest : list Text) : LogBlock :=
  {| t := t b; lines := lines b ++ [(name, rest)]; emptyLines := emptyLines b |}.

Definition logEmpty (b : LogBlock) (args : list Text) : LogBlock :=
  {| t := t b; lines := lines b; emptyLines := emptyLines b ++ [args] |}.

Fixpoint spaces (n : nat) : string :=
  match n with
  | O => ""
  | S n' => String " " (spaces n')
  end.

(** lodash/fp [padEnd(length, string)] *)
Definition padEnd (length : nat) (s : string) : string :=
  s +:+ spaces (length - String.length s).

(** The width of the label column: the [lines.reduce] of [end]. *)
Definition maxLength (lines : list (string * list Text)) : nat :=
  Array_reduce
    (fun (length : nat) (line : string * list Text) =>
       if (length <? String.length (fst line))%nat then String.length (fst line) else length)
    O lines.

Definition end_ (b : LogBlock) : M unit :=
  (console_log [Lit ""];;
   console_log [Lit (t b +:+ ":")];;
   let maxLength := maxLength (lines b) in
   each (fun line => console_log ([Lit " "; Lit (padEnd maxLength (fst line)); Lit "=>"] ++ snd line))
        (lines b);;
   each (fun line => console_log (Lit " " :: line)) (emptyLines b);;
   console_log [Lit ""])%js.

(** ** Command line, environment and the request *)

Module args.
(** The flags after yargs; [token] is [None] when [--token] is absent. *)
Record t := {
  repoOwner : string;
  repoName : string;
  baseBranch : string;
  startDate : timestamp;
  endDate : timestamp;
  token : option string
}.
End args.

Module process.
Record env := { GH_TOKEN : option string }.
End process.

Inductive OrderField := UPDATED_AT | CREATED_AT.

Inductive BaseRef :=
| BaseBranchVariable
| BaseRefLiteral (branch : string).

(** The GraphQL query text, by what it asks for. *)
Record Query := {
  first : Z;
  orderBy : OrderField;
  baseRefName : BaseRef;
  states : list PullRequestState
}.

Record Request := {
  url : string;
  headers_sent : list (string * string);
  query_sent : Query;
  variables : list (string * string)
}.

(** The API as the script sees it: the nodes of the answer, or a rejection. *)
Definition Server := Request -> Completion (list PullRequest).

(** [await client.request(query, variables)], then
    [data.repository.pullRequests.nodes] *)
Definition client_request (server : Server) (req : Request) : M loc :=
  match server req with
  | Normal nodes => alloc nodes
  | Throw e => throw e
  end.

(** [if (args.token)]: a string other than the empty one. *)
Definition headers_for (token : option string) : list (string * string) :=
  match token with
  | Some tok => if String.eqb tok "" then [] else [("Authorization", "Bearer " +:+ tok)]
  | None => []
  end%string.

(** A property of the array a reference points to. *)
Definition reading {B} (arr : loc) (f : list PullRequest -> B) : M B :=
  bind (deref arr) (fun l => ret (f l)).

(** [`(#${n})`] *)
Definition hash (n : Z) : Text := Concat (Lit "(#") (Concat (Num n) (Lit ")")).

Definition empty_world : World := {| heap := []; console := [] |}.

(** [main().catch(console.error)] *)
Definition catch (main : M unit) : World :=
  match main empty_world with
  | (Normal _, w) => w
  | (Throw e, w) => snd (console_error e w)
  end.

(** ** index.js *)

Module Index.
Local Open Scope js_scope.

(** line 64: read, and not used below *)
Definition token (env : process.env) : option string := process.GH_TOKEN env.

(** lines 66-69 *)
Definition headers (a : args.t) : list (string * string) := headers_for (args.token a).

Definition query : Query :=
  {| first := 100; orderBy := UPDATED_AT; baseRefName := BaseBranchVariable;
     states := [MERGED] |}.

Definition request (a : args.t) : Request :=
  {| url := "https://api.github.com/graphql";
     headers_sent := headers a;
     query_sent := query;
     variables := [("name", args.repoName a); ("owner", args.repoOwner a);
                   ("baseBranch", args.baseBranch a)]%string |}.

(** lines 106-109 *)
Definition inWindow (startDate endDate : timestamp) (node : PullRequest) : bool :=
  let mergedAt := mergedAt node in
  isBefore mergedAt endDate && isAfter mergedAt startDate.

(** lines 121-125 *)
Definition byOpenTime (a b : PullRequest) : Z :=
  let aOpenTime := openTime a in
  let bOpenTime := openTime b in
  aOpenTime - bOpenTime.

Definition main (a : args.t) (server : Server) : M unit :=
  let* nodes := client_request server (request a) in
  let startDate := args.startDate a in
  let endDate := args.endDate a in
  let* prs := Array_filter nodes (inWindow startDate endDate) in

  let infoBlock := logBlock "Info" in
  let infoBlock := log infoBlock "Owner" [Lit (args.repoOwner a)] in
  let infoBlock := log infoBlock "Repository name" [Lit (args.repoName a)] in
  let infoBlock := log infoBlock "From" [FormatDate (args.startDate a)] in
  let infoBlock := log infoBlock "To" [FormatDate (args.endDate a)] in
  let* prs_length := Array_length prs in
  let infoBlock := log infoBlock "Total" [Num prs_length] in
  end_ infoBlock;;

  let prBlock := logBlock "Pull requests" in
  let* copy := Array_map prs (fun a => a) in
  let* f := Array_sort_in_place copy byOpenTime in
  let* prBlock :=
    reading f
      (Array_reduce
         (fun blk pr =>
            logEmpty blk
              [Lit (title pr);
               Concat (Lit "- ") (Distance (Fin (inject_Z (openTime pr))) None);
               hash (number pr)])
         prBlock) in
  end_ prBlock;;

  let authorBlock := logBlock "Count by author" in
  let* authors := reading prs authors in
  let authorBlock :=
    Array_reduce (fun blk row => log blk (fst row) [CountText (snd row)])
                 authorBlock (zip (keys authors) (values authors)) in
  end_ authorBlock;;

  let mergeBlock := logBlock "Time to merge" in
  let* shortest := reading prs shortest in
  let* longest := reading prs longest in
  let* s := member shortest "null" "createdAt" in
  let mergeBlock :=
    log mergeBlock "Shortest"
        [Distance (Fin (inject_Z (mergedAt s - createdAt s))) None; hash (number s)] in
  let* l := member longest "null" "createdAt" in
  let mergeBlock :=
    log mergeBlock "Longest"
        [Distance (Fin (inject_Z (mergedAt l - createdAt l))) None; hash (number l)] in

  let* total := reading prs total in
  let* prs_length := Array_length prs in
  let meanInMs := divide total prs_length in
  let mergeBlock := log mergeBlock "Mean (days)" [Distance meanInMs None] in
  let mergeBlock := log mergeBlock "Mean (hours)" [Distance meanInMs (Some "h")] in

  let* allTimes := reading prs (map openTime) in
  let mergeBlock := log mergeBlock "Median" [Distance (median allTimes) None] in

  let* percentileVals := reading prs percentileVals in
  let p90 := percentile 90 percentileVals tagged_openTime in
  let* p := member p90 "undefined" "openTime" in
  let mergeBlock :=
    log mergeBlock "p90"
        [Distance (Fin (inject_Z (tagged_openTime p))) None; hash (number (tagged_pr p))] in
  end_ mergeBlock.

(** line 213 *)
Definition script (a : args.t) (env : process.env) (server : Server) : World :=
  let token := token env in
  catch (main a server).
End Index.

(** ** unnamed/part_000: the variant for the [staging] branch *)

Module Part000.
Local Open Scope js_scope.

(** line 24: read, and not used below *)
Definition token (env : process.env) : option string := process.GH_TOKEN env.

(** lines 26-29 *)
Definition headers (a : args.t) : list (string * string) := headers_for (args.token a).

Definition query : Query :=
  {| first := 100; orderBy := CREATED_AT; baseRefName := BaseRefLiteral "staging";
     states := [MERGED] |}.

Definition request (a : args.t) : Request :=
  {| url := "https://api.github.com/graphql";
     headers_sent := headers a;
     query_sent := query;
     variables := [("name", args.repoName a); ("owner", args.repoOwner a)]%string |}.

(** lines 65-68 *)
Definition inWindow (startDate endDate : timestamp) (node : PullRequest) : bool :=
  let createdAt := createdAt node in
  isBefore createdAt endDate && isAfter createdAt startDate.

(** [Math.max(...names.map(a => a.length))]; on no names JavaScript gives
    [-Infinity], which no [padEnd] then receives, and the fold gives 0. *)
Definition longestName (names : list string) : nat :=
  foldr Nat.max O (map String.length names).

Definition main (a : args.t) (server : Server) : M unit :=
  let* nodes := client_request server (request a) in
  let startDate := args.startDate a in
  let endDate := args.endDate a in
  let* prs := Array_filter nodes (inWindow startDate endDate) in

  console_log [Lit ""];;
  console_log [Lit "Info:"];;
  console_log [Lit "  Owner           =>"; Lit (args.repoOwner a)];;
  console_log [Lit "  Repository name =>"; Lit (args.repoName a)];;
  console_log [Lit "  From            =>"; FormatDate (args.startDate a)];;
  console_log [Lit "  To              =>"; FormatDate (args.endDate a)];;
  let* prs_length := Array_length prs in
  console_log [Lit "  Total           =>"; Num prs_length];;

  console_log [Lit ""];;
  console_log [Lit "Count by author:"];;
  let* authors := reading prs authors in
  let longestName := longestName (ownKeys authors) in
  each (fun row =>
          console_log [Lit " "; Lit (padEnd longestName (fst row)); Lit "=>";
                       CountText (snd row)])
       (zip (keys authors) (values authors));;

  console_log [Lit ""];;
  console_log [Lit "Time to merge:"];;
  let* shortest := reading prs shortest in
  let* longest := reading prs longest in
  let* s := member shortest "null" "createdAt" in
  console_log [Lit "  Shortest     =>";
               Distance (Fin (inject_Z (mergedAt s - createdAt s))) None; hash (number s)];;
  let* l := member longest "null" "createdAt" in
  console_log [Lit "  Longest      =>";
               Distance (Fin (inject_Z (mergedAt l - createdAt l))) None; hash (number l)];;

  let* total := reading prs total in
  let* prs_length := Array_length prs in
  let meanInMs := divide total prs_length in
  console_log [Lit "  Mean (days)  =>"; Distance meanInMs None];;
  console_log [Lit "  Mean (hours) =>"; Distance meanInMs (Some "h")].

(** line 137 *)
Definition script (a : args.t) (env : process.env) (server : Server) : World :=
  let token := token env in
  catch (main a server).
End Part000.

(** ** Sample data *)

Definition pr_ (n : Z) (who : string) (created merged : timestamp) : PullRequest :=
  {| number := n; author := {| login := who |}; state := MERGED;
     mergedAt := merged; createdAt := created; title := "pr"; changedFiles := 1 |}.

(** Four pull requests with open durations 5, 1, 9, 1. *)
Definition sample_durations : list PullRequest :=
  [pr_ 1 "a" 0 5; pr_ 2 "b" 0 1; pr_ 3 "a" 0 9; pr_ 4 "c" 0 1].

(** Three merged pull requests, the third outside the window of [sample_args]
    on both reference timestamps. *)
Definition sample_nodes : list PullRequest :=
  [pr_ 1 "a" 1100 1500; pr_ 2 "b" 1200 1400; pr_ 3 "a" 100 900].

(** A pull request merged before it was created, and a well-formed one. *)
Definition sample_corrupt : list PullRequest :=
  [pr_ 1 "a" 1500 1400; pr_ 2 "b" 1100 1300].

Definition sample_env : process.env := {| process.GH_TOKEN := Some "s3cret" |}.

Definition sample_args : args.t :=
  {| args.repoOwner := "wmonk"; args.repoName := "github-stats"; args.baseBranch := "master";
     args.startDate := 1000; args.endDate := 2000; args.token := None |}.

(** An API that wants a bearer token: it rejects a request that carries no
    [Authorization] header. *)
Definition auth_error : JSError :=
  {| name := "Error"; message := "GraphQL Error (Code: 401)" |}.

Definition auth_server (nodes : list PullRequest) : Server :=
  fun req =>
    match headers_sent req with
    | [] => Throw auth_error
    | _ => Normal nodes
    end.

(** Arguments that differ from [a] in having no [--token]. *)
Definition without_token (a : args.t) : args.t :=
  {| args.repoOwner := args.repoOwner a; args.repoName := args.repoName a;
     args.baseBranch := args.baseBranch a; args.startDate := args.startDate a;
     args.endDate := args.endDate a; args.token := None |}.

(** ** The text of a report, block by block *)

(** What [end] of a block writes. *)
Definition block_output (b : LogBlock) : list Output :=
  [Log [Lit ""]; Log [Lit (t b +:+ ":")]]
  ++ map (fun line =>
            Log ([Lit " "; Lit (padEnd (maxLength (lines b)) (fst line)); Lit "=>"] ++ snd line))
         (lines b)
  ++ map (fun line => Log (Lit " " :: line)) (emptyLines b)
  ++ [Log [Lit ""]].

Definition stat_line (label : string) (ms : JSNumber) (n : Z) : string * list Text :=
  (label, [Distance ms None; hash n]).

Module IndexReport.
Definition infoBlock (a : args.t) (total : Z) : LogBlock :=
  {| t := "Info";
     lines := [("Owner", [Lit (args.repoOwner a)]);
               ("Repository name", [Lit (args.repoName a)]);
               ("From", [FormatDate (args.startDate a)]);
               ("To", [FormatDate (args.endDate a)]);
               ("Total", [Num total])]%string;
     emptyLines := [] |}.

Definition prBlock (f : list PullRequest) : LogBlock :=
  {| t := "Pull requests";
     lines := [];
     emptyLines :=
       map (fun pr => [Lit (title pr);
                       Concat (Lit "- ") (Distance (Fin (inject_Z (openTime pr))) None);
                       hash (number pr)]) f |}.

Definition authorBlock (rows : list (string * Count)) : LogBlock :=
  {| t := "Count by author";
     lines := map (fun row => (fst row, [CountText (snd row)])) rows;
     emptyLines := [] |}.

Definition mergeBlock (s l : PullRequest) (mean med : JSNumber) (p : TaggedPR) : LogBlock :=
  {| t := "Time to merge";
     lines := [stat_line "Shortest" (Fin (inject_Z (openTime s))) (number s);
               stat_line "Longest" (Fin (inject_Z (openTime l))) (number l);
               ("Mean (days)", [Distance mean None]);
               ("Mean (hours)", [Distance mean (Some "h")]);
               ("Median", [Distance med None]);
               stat_line "p90" (Fin (inject_Z (tagged_openTime p))) (number (tagged_pr p))]%string;
     emptyLines := [] |}.

(** The blocks up to the point where the statistics start. *)
Definition preamble (a : args.t) (prs : list PullRequest) : list Output :=
  block_output (infoBlock a (Z.of_nat (length prs)))
  ++ block_output (prBlock (Array_sort Index.byOpenTime prs))
  ++ block_output (authorBlock (authorRows prs)).

Definition report (a : args.t) (prs : list PullRequest)
    (s l : PullRequest) (p : TaggedPR) : list Output :=
  preamble a prs
  ++ block_output (mergeBlock s l (meanInMs prs) (median (map openTime prs)) p).
End IndexReport.

Module Part000Report.
Definition preamble (a : args.t) (prs : list PullRequest) : list Output :=
  [Log [Lit ""]; Log [Lit "Info:"];
   Log [Lit "  Owner           =>"; Lit (args.repoOwner a)];
   Log [Lit "  Repository name =>"; Lit (args.repoName a)];
   Log [Lit "  From            =>"; FormatDate (args.startDate a)];
   Log [Lit "  To              =>"; FormatDate (args.endDate a)];
   Log [Lit "  Total           =>"; Num (Z.of_nat (length prs))];
   Log [Lit ""]; Log [Lit "Count by author:"]]
  ++ map (fun row =>
            Log [Lit " ";
                 Lit (padEnd (Part000.longestName (keys (authors prs))) (fst row));
                 Lit "=>"; CountText (snd row)])
         (authorRows prs)
  ++ [Log [Lit ""]; Log [Lit "Time to merge:"]].

Definition report (a : args.t) (prs : list PullRequest) (s l : PullRequest) : list Output :=
  preamble a prs
  ++ [Log [Lit "  Shortest     =>"; Distance (Fin (inject_Z (openTime s))) None; hash (number s)];
      Log [Lit "  Longest      =>"; Distance (Fin (inject_Z (openTime l))) None; hash (number l)];
      Log [Lit "  Mean (days)  =>"; Distance (meanInMs prs) None];
      Log [Lit "  Mean (hours) =>"; Distance (meanInMs prs) (Some "h")]].
End Part000Report.

(** The error of reading [shortest.createdAt] when [shortest] is [null]. *)
Definition null_createdAt : JSError :=
  {| name := "TypeError"; message := "Cannot read property 'createdAt' of null" |}.

(** ** A block driven by a sequence of calls *)

(** One call on a block made by [logBlock]. *)
Inductive BlockCall :=
| call_log (name : string) (rest : list Text)
| call_logEmpty (args : list Text).

Definition call (b : LogBlock) (c : BlockCall) : LogBlock :=
  match c with
  | call_log name rest => log b name rest
  | call_logEmpty args => logEmpty b args
  end.

(** The arguments of the [log] calls, and of the [logEmpty] calls, of a
    sequence. *)
Definition logged (c : BlockCall) : option (string * list Text) :=
  match c with
  | call_log name rest => Some (name, rest)
  | call_logEmpty _ => None
  end.

Definition loggedEmpty (c : BlockCall) : option (list Text) :=
  match c with
  | call_log _ _ => None
  | call_logEmpty args => Some args
  end.

(** ** What the count by author holds, for every login *)

(** The object that holds [f k] under each key [k] of [ks], created in the
    order of [ks]. *)
Definition properties (f : string -> Count) (ks : list string) : JSObject :=
  map (fun k => (k, f k)) ks.

(** The value found under the login [k] after the logins [l]: the number of
    its occurrences, unless [k] names an inherited property; then the first
    occurrence stores [NaN] and the count starts with the second one. *)
Definition countValue (k : string) (l : list string) : Count :=
  let n := occurrences k l in
  if bool_decide (k ∈ Object_prototype) then
    (if n =? 1 then CntNaN else Cnt (n - 1))
  else Cnt n.

(** The logins that get a property: all but [__proto__]. *)
Definition listed (l : list string) : list string :=
  filter (fun k => k <> "__proto__"%string) (firstSeen l).

(** * Properties *)

(** ** Running the effects *)

Lemma bind_normal {A B} (m : M A) (k : A -> M B) w a w' :
  m w = (Normal a, w') -> bind m k w = k a w'.
Proof. intros H. unfold bind. now rewrite H. Qed.

Lemma each_console_log {A} (f : A -> list Text) l w :
  each (fun x => console_log (f x)) l w
  = (Normal tt, {| heap := heap w; console := console w ++ map (fun x => Log (f x)) l |}).
Proof.
  revert w. induction l as [|x l IH]; intros w; simpl.
  - unfold ret. rewrite app_nil_r. now destruct w.
  - unfold bind, console_log at 1. rewrite IH. simpl. now rewrite <- app_assoc.
Qed.

Lemma end_run b w :
  end_ b w = (Normal tt, {| heap := heap w; console := console w ++ block_output b |}).
Proof.
  unfold end_, block_output.
  unfold bind, console_log at 1 2. simpl.
  rewrite each_console_log. simpl. rewrite each_console_log. simpl.
  unfold console_log. simpl. f_equal. f_equal.
  rewrite <- !app_assoc. reflexivity.
Qed.

Lemma prBlock_fold (f : PullRequest -> list Text) l b :
  Array_reduce (fun blk pr => logEmpty blk (f pr)) b l
  = {| t := t b; lines := lines b; emptyLines := emptyLines b ++ map f l |}.
Proof.
  unfold Array_reduce. revert b. induction l as [|x l IH]; intros b; simpl.
  - rewrite app_nil_r. now destruct b.
  - rewrite IH. simpl. now rewrite <- app_assoc.
Qed.

Lemma authorBlock_fold (f : string * Count -> string * list Text) l b :
  Array_reduce (fun blk row => log blk (fst (f row)) (snd (f row))) b l
  = {| t := t b; lines := lines b ++ map f l; emptyLines := emptyLines b |}.
Proof.
  unfold Array_reduce. revert b. induction l as [|x l IH]; intros b; simpl.
  - rewrite app_nil_r. now destruct b.
  - rewrite IH. simpl. rewrite <- app_assoc. simpl. now destruct (f x).
Qed.


Section Primitives.
Context (w : World) (r : loc) (l : list PullRequest) (Hr : heap w !! r = Some l).

Lemma deref_run : deref r w = (Normal l, w).
Proof. unfold deref. now rewrite Hr. Qed.

Lemma reading_run {B} (f : list PullRequest -> B) : reading r f w = (Normal (f l), w).
Proof. unfold reading. now rewrite (bind_normal _ _ _ _ _ deref_run). Qed.

Lemma Array_length_run : Array_length r w = (Normal (Z.of_nat (length l)), w).
Proof. unfold Array_length. now rewrite (bind_normal _ _ _ _ _ deref_run). Qed.

Lemma Array_filter_run callback :
  Array_filter r callback w
  = (Normal (length (heap w)),
     {| heap := heap w ++ [List.filter callback l]; console := console w |}).
Proof. unfold Array_filter. now rewrite (bind_normal _ _ _ _ _ deref_run). Qed.

Lemma Array_map_run callback :
  Array_map r callback w
  = (Normal (length (heap w)),
     {| heap := heap w ++ [map callback l]; console := console w |}).
Proof. unfold Array_map. now rewrite (bind_normal _ _ _ _ _ deref_run). Qed.

Lemma Array_sort_in_place_run compareFn :
  Array_sort_in_place r compareFn w
  = (Normal r, {| heap := <[r := Array_sort compareFn l]> (heap w); console := console w |}).
Proof. unfold Array_sort_in_place. now rewrite (bind_normal _ _ _ _ _ deref_run). Qed.
End Primitives.

Lemma member_run {A} (v : A) nothing field w : member (Some v) nothing field w = (Normal v, w).
Proof. reflexivity. Qed.

Ltac run_with lem :=
  erewrite bind_normal by (apply lem; reflexivity);
  cbn [heap console length app list_insert insert].

Ltac run :=
  first [ run_with Array_filter_run | run_with Array_map_run
        | run_with Array_sort_in_place_run | run_with Array_length_run
        | run_with @reading_run | run_with end_run | run_with @member_run ].


Lemma Index_main_run a server nodes s l p :
  server (Index.request a) = Normal nodes ->
  let prs := List.filter (Index.inWindow (args.startDate a) (args.endDate a)) nodes in
  shortest prs = Some s -> longest prs = Some l -> p90 prs = Some p ->
  Index.main a server empty_world
  = (Normal tt, {| heap := [nodes; prs; Array_sort Index.byOpenTime prs];
                   console := IndexReport.report a prs s l p |}).
Proof.
  intros Hs prs Hsh Hlo Hp.
  unfold Index.main, client_request, empty_world. rewrite Hs.
  erewrite bind_normal by reflexivity. cbn [heap console length app].
  run. fold prs. do 10 run. rewrite Hsh, Hlo. do 6 run.
  fold (p90 prs). rewrite Hp. run. rewrite end_run. cbn [heap console].
  rewrite map_id, prBlock_fold.
  rewrite (authorBlock_fold (fun row => (fst row, [CountText (snd row)]))).
  reflexivity.
Qed.

Lemma Index_main_empty a server nodes :
  server (Index.request a) = Normal nodes ->
  List.filter (Index.inWindow (args.startDate a) (args.endDate a)) nodes = [] ->
  Index.main a server empty_world
  = (Throw null_createdAt,
     {| heap := [nodes; []; []]; console := IndexReport.preamble a [] |}).
Proof.
  intros Hs Hprs.
  unfold Index.main, client_request, empty_world. rewrite Hs.
  erewrite bind_normal by reflexivity. cbn [heap console length app].
  run. rewrite Hprs. do 9 run.
  reflexivity.
Qed.

Lemma console_log_run args w :
  console_log args w
  = (Normal tt, {| heap := heap w; console := console w ++ [Log args] |}).
Proof. reflexivity. Qed.

Ltac run_console :=
  first [ run_with console_log_run | run_with @each_console_log ].

Lemma Part000_main_run a server nodes s l :
  server (Part000.request a) = Normal nodes ->
  let prs := List.filter (Part000.inWindow (args.startDate a) (args.endDate a)) nodes in
  shortest prs = Some s -> longest prs = Some l ->
  Part000.main a server empty_world
  = (Normal tt, {| heap := [nodes; prs]; console := Part000Report.report a prs s l |}).
Proof.
  intros Hs prs Hsh Hlo.
  unfold Part000.main, client_request, empty_world. rewrite Hs.
  erewrite bind_normal by reflexivity. cbn [heap console length app].
  run. fold prs. do 6 run_console. run. do 3 run_console. run. do 3 run_console.
  do 2 run. rewrite Hsh, Hlo. run. run_console. run. run_console. do 2 run.
  run_console. rewrite console_log_run. cbn [heap console].
  unfold Part000Report.report, Part000Report.preamble, authorRows, keys.
  rewrite <- !app_assoc. cbn [app]. rewrite <- !app_assoc. reflexivity.
Qed.

Lemma Part000_main_empty a server nodes :
  server (Part000.request a) = Normal nodes ->
  List.filter (Part000.inWindow (args.startDate a) (args.endDate a)) nodes = [] ->
  Part000.main a server empty_world
  = (Throw null_createdAt,
     {| heap := [nodes; []]; console := Part000Report.preamble a [] |}).
Proof.
  intros Hs Hprs.
  unfold Part000.main, client_request, empty_world. rewrite Hs.
  erewrite bind_normal by reflexivity. cbn [heap console length app].
  run. rewrite Hprs. do 6 run_console. run. do 3 run_console. run. do 3 run_console.
  do 2 run.
  reflexivity.
Qed.

(** ** Sorting *)

Section Sorting.
Context {A : Type}.

Lemma sort_insert_Permutation (compareFn : A -> A -> Z) x l :
  sort_insert compareFn x l ≡ₚ x :: l.
Proof.
  induction l as [|y l IH]; simpl; [done|].
  destruct (compareFn x y <=? 0); [done|].
  rewrite IH. apply perm_swap.
Qed.

Lemma Array_sort_Permutation (compareFn : A -> A -> Z) l :
  Array_sort compareFn l ≡ₚ l.
Proof.
  induction l as [|x l IH]; simpl; [done|].
  rewrite sort_insert_Permutation. by rewrite IH.
Qed.

Lemma Array_sort_length (compareFn : A -> A -> Z) l :
  length (Array_sort compareFn l) = length l.
Proof. apply Permutation_length, Array_sort_Permutation. Qed.

(** A comparator that subtracts keys orders by key. *)
Context (key : A -> Z).

Lemma sort_insert_HdRel x y l :
  key y <= key x -> HdRel (key_le key) y l -> HdRel (key_le key) y (sort_insert (by_key key) x l).
Proof.
  intros Hyx Hy. destruct l as [|z l]; simpl.
  - by constructor.
  - destruct (by_key key x z <=? 0); constructor; try done.
    by inversion Hy.
Qed.

Lemma sort_insert_Sorted x l :
  Sorted (key_le key) l -> Sorted (key_le key) (sort_insert (by_key key) x l).
Proof.
  induction 1 as [|y l Hl IH Hy]; simpl.
  - by repeat constructor.
  - destruct (by_key key x y <=? 0) eqn:E.
    + constructor; [by constructor|]. constructor.
      unfold key_le, by_key in *. lia.
    + constructor; [done|]. apply sort_insert_HdRel; [|done].
      unfold by_key in E. lia.
Qed.

Lemma Array_sort_Sorted l : Sorted (key_le key) (Array_sort (by_key key) l).
Proof.
  induction l as [|x l IH]; simpl; [constructor|].
  by apply sort_insert_Sorted.
Qed.
End Sorting.

Lemma sort_numbers_Sorted (values : list Z) :
  Sorted Z.le (Array_sort (fun a b => a - b) values).
Proof. apply (Array_sort_Sorted (fun v : Z => v)). Qed.

(** A list of integers has one ascending arrangement. *)
Lemma sort_numbers_unique (values sorted : list Z) :
  Sorted Z.le sorted -> sorted ≡ₚ values ->
  Array_sort (fun a b => a - b) values = sorted.
Proof.
  intros Hs Hp. apply (Sorted_unique Z.le).
  - apply sort_numbers_Sorted.
  - done.
  - by rewrite Array_sort_Permutation.
Qed.

(** ** Median *)

Example median_empty : median [] = NaN.
Proof. reflexivity. Qed.

Example median_unsorted : median [4; 2; 1; 3] = Fin (5 # 2).
Proof. reflexivity. Qed.

(** Linear arithmetic with division by a constant. *)
Ltac div_lia :=
  zify; rewrite ?Nat2Z.inj_div in *; simpl Z.of_nat in *;
  Z.to_euclidean_division_equations; lia.

Lemma Array_get_nat {A} (l : list A) (i : nat) : Array_get l (Z.of_nat i) = l !! i.
Proof.
  unfold Array_get. destruct (Z.ltb_spec (Z.of_nat i) 0); [lia|].
  by rewrite Nat2Z.id.
Qed.

Lemma median_odd (values : list Z) (m : Z) :
  Nat.odd (length values) = true ->
  Array_sort (fun a b => a - b) values !! (length values / 2)%nat = Some m ->
  median values = Fin (inject_Z m).
Proof.
  intros Hodd Hm. unfold median. rewrite Array_sort_length.
  apply Nat.odd_spec in Hodd. destruct Hodd as [k Hk].
  assert (Z.of_nat (length values) mod 2 = 1) as Hmod by div_lia.
  rewrite Hmod. simpl.
  replace (Z.of_nat (length values) / 2) with (Z.of_nat (length values / 2))
    by div_lia.
  by rewrite Array_get_nat, Hm.
Qed.

Lemma median_even (values : list Z) (a b : Z) :
  Nat.even (length values) = true ->
  values <> [] ->
  Array_sort (fun a b => a - b) values !! (length values / 2 - 1)%nat = Some a ->
  Array_sort (fun a b => a - b) values !! (length values / 2)%nat = Some b ->
  median values = divide (a + b) 2.
Proof.
  intros Heven Hne Ha Hb. unfold median. rewrite Array_sort_length.
  apply Nat.even_spec in Heven. destruct Heven as [k Hk].
  assert (k <> 0)%nat by (destruct values; simpl in *; [done|lia]).
  assert (Z.of_nat (length values) mod 2 = 0) as Hmod by div_lia.
  rewrite Hmod. simpl.
  replace (Z.of_nat (length values) / 2 - 1)
    with (Z.of_nat (length values / 2 - 1)) by div_lia.
  replace (Z.of_nat (length values) / 2) with (Z.of_nat (length values / 2))
    by div_lia.
  by rewrite !Array_get_nat, Ha, Hb.
Qed.

Lemma divide_nonzero (a b : Z) :
  b <> 0 -> exists q, divide a b = Fin q /\ (q * inject_Z b == inject_Z a)%Q.
Proof.
  intros Hb. unfold divide. destruct (Z.eqb_spec b 0); [lia|].
  eexists. split; [reflexivity|].
  rewrite Qred_correct. field.
  intros H0. unfold Qeq in H0. simpl in H0. lia.
Qed.

(** C2.  For every non-empty list of open durations, [median] returns the
    middle element of the ascending arrangement of the list when the length is
    odd, and the average of the two middle elements when it is even.  The
    ascending arrangement is any sorted permutation of the input (a reference
    sort): there is only one.  In particular median([1,2,3]) = 2 and
    median([1,2,3,4]) = 2.5. *)
Theorem C2_median_sort_and_pick (values sorted : list Z) :
  values <> [] ->
  Sorted Z.le sorted ->
  sorted ≡ₚ values ->
  let half := (length values / 2)%nat in
  (Nat.odd (length values) = true ->
   exists m, sorted !! half = Some m /\ median values = Fin (inject_Z m))
  /\ (Nat.even (length values) = true ->
      exists a b q,
        sorted !! (half - 1)%nat = Some a /\ sorted !! half = Some b /\
        median values = Fin q /\ (q == (inject_Z a + inject_Z b) / 2)%Q)
  /\ median [1; 2; 3] = Fin 2
  /\ median [1; 2; 3; 4] = Fin (5 # 2).
Proof.
  intros Hne Hsorted Hperm half.
  pose proof (sort_numbers_unique values sorted Hsorted Hperm) as Hsort.
  assert (length sorted = length values) as Hlen by by apply Permutation_length.
  assert (length values <> 0)%nat as Hpos by by destruct values.
  assert (half < length sorted)%nat as Hhalf.
  { rewrite Hlen. subst half. apply Nat.div_lt; lia. }
  destruct (lookup_lt_is_Some_2 sorted half Hhalf) as [b Hb].
  split; [|split; [|split; reflexivity]].
  - intros Hodd. exists b. split; [done|].
    apply median_odd; [done|]. by rewrite Hsort.
  - intros Heven.
    assert (half - 1 < length sorted)%nat as Hprev by lia.
    destruct (lookup_lt_is_Some_2 sorted _ Hprev) as [a Ha].
    destruct (divide_nonzero (a + b) 2) as (q & Hq & Hmul); [done|].
    exists a, b, q. repeat split; try done.
    + rewrite <- Hq. apply median_even; try done; by rewrite Hsort.
    + rewrite inject_Z_plus in Hmul. rewrite <- Hmul. field.
Qed.

Lemma C2_median_sort_and_pick_witness :
  exists a b q,
    ([1; 2; 3; 4] : list Z) !! 1%nat = Some a /\ ([1; 2; 3; 4] : list Z) !! 2%nat = Some b /\
    median [3; 1; 4; 2] = Fin q /\ (q == (inject_Z a + inject_Z b) / 2)%Q.
Proof.
  assert (([3; 1; 4; 2] : list Z) <> []) as Hne by discriminate.
  assert (Sorted Z.le [1; 2; 3; 4]) as Hs by (repeat constructor; lia).
  assert ([1; 2; 3; 4] ≡ₚ [3; 1; 4; 2]) as Hp.
  { change [3; 1; 4; 2] with ([3; 1] ++ 4 :: [2]).
    rewrite <- Permutation_middle. simpl.
    change [4; 3; 1; 2] with ([4; 3] ++ 1 :: [2]).
    rewrite <- Permutation_middle. simpl.
    change [1; 4; 3; 2] with ([1; 4; 3] ++ [2]).
    rewrite (Permutation_app_comm [1; 4; 3] [2]). simpl.
    change [2; 1; 4; 3] with ([2] ++ 1 :: [4; 3]).
    rewrite <- Permutation_middle. simpl.
    do 2 apply perm_skip. apply perm_swap. }
  apply (proj1 (proj2 (C2_median_sort_and_pick [3; 1; 4; 2] [1; 2; 3; 4] Hne Hs Hp))).
  reflexivity.
Defined.

(** ** Date filter *)

Lemma filter_callback {A} (callback : A -> bool) (P : A -> Prop)
    `{!forall x, Decision (P x)} (l : list A) :
  (forall x, callback x = true <-> P x) ->
  List.filter callback l = filter P l.
Proof.
  intros Hcb. induction l as [|x l IH]; [done|].
  simpl. rewrite filter_cons. destruct (callback x) eqn:E.
  - rewrite decide_True by by apply Hcb. by rewrite IH.
  - rewrite decide_False; [done|]. intros HP. apply Hcb in HP. congruence.
Qed.

Lemma Index_inWindow_spec startDate endDate node :
  Index.inWindow startDate endDate node = true
  <-> startDate < mergedAt node < endDate.
Proof.
  unfold Index.inWindow, isBefore, isAfter.
  rewrite andb_true_iff, !Z.ltb_lt. lia.
Qed.

Lemma Part000_inWindow_spec startDate endDate node :
  Part000.inWindow startDate endDate node = true
  <-> startDate < createdAt node < endDate.
Proof.
  unfold Part000.inWindow, isBefore, isAfter.
  rewrite andb_true_iff, !Z.ltb_lt. lia.
Qed.

(** C3.  For every fetched list and every pair of dates, the filter keeps, in
    their order, exactly the pull requests whose reference timestamp
    ([mergedAt] in index.js, [createdAt] in part_000) is strictly after
    [startDate] and strictly before [endDate]; a pull request whose reference
    timestamp equals either bound is left out. *)
Theorem C3_date_filter_strict (nodes : list PullRequest) (startDate endDate : timestamp) :
  List.filter (Index.inWindow startDate endDate) nodes
  = filter (fun pr => startDate < mergedAt pr < endDate) nodes
  /\ List.filter (Part000.inWindow startDate endDate) nodes
     = filter (fun pr => startDate < createdAt pr < endDate) nodes
  /\ (forall pr, mergedAt pr = startDate \/ mergedAt pr = endDate ->
                 pr ∉ List.filter (Index.inWindow startDate endDate) nodes)
  /\ (forall pr, createdAt pr = startDate \/ createdAt pr = endDate ->
                 pr ∉ List.filter (Part000.inWindow startDate endDate) nodes).
Proof.
  assert (List.filter (Index.inWindow startDate endDate) nodes
          = filter (fun pr => startDate < mergedAt pr < endDate) nodes) as HI.
  { apply filter_callback. intros pr. apply Index_inWindow_spec. }
  assert (List.filter (Part000.inWindow startDate endDate) nodes
          = filter (fun pr => startDate < createdAt pr < endDate) nodes) as HP.
  { apply filter_callback. intros pr. apply Part000_inWindow_spec. }
  repeat split; try done.
  - intros pr Hb. rewrite HI, list_elem_of_filter. lia.
  - intros pr Hb. rewrite HP, list_elem_of_filter. lia.
Qed.

(** ** Shortest and longest *)

Section Selection.
(** A reduce step that keeps the accumulator unless the next element has a
    strictly smaller key. *)
Context (key : PullRequest -> Z).
Context (step : option PullRequest -> PullRequest -> option PullRequest).
Hypothesis step_null : forall b, step None b = Some b.
Hypothesis step_keep :
  forall a b, step (Some a) b = if key b <? key a then Some b else Some a.

Lemma select_from (l : list PullRequest) (a : PullRequest) :
  exists p,
    fold_left step l (Some a) = Some p
    /\ ((p = a /\ Forall (fun q => key a <= key q) l)
        \/ (exists l1 l2,
              l = l1 ++ p :: l2 /\ key p < key a
              /\ Forall (fun q => key p < key q) l1
              /\ Forall (fun q => key p <= key q) l2)).
Proof.
  revert a. induction l as [|b l IH]; intros a; simpl.
  - exists a. split; [done|]. left. by split.
  - rewrite step_keep. destruct (Z.ltb_spec (key b) (key a)) as [Hlt|Hge].
    + destruct (IH b) as (p & Hp & [[-> Hall]|(l1 & l2 & -> & Hpb & H1 & H2)]).
      * exists b. split; [done|]. right. exists [], l. by repeat split.
      * exists p. split; [done|]. right. exists (b :: l1), l2.
        repeat split; try done; [lia|]. by constructor.
    + destruct (IH a) as (p & Hp & [[-> Hall]|(l1 & l2 & -> & Hpa & H1 & H2)]).
      * exists a. split; [done|]. left. split; [done|]. by constructor.
      * exists p. split; [done|]. right. exists (b :: l1), l2.
        repeat split; try done. constructor; [lia|done].
Qed.

Lemma select_first (l : list PullRequest) :
  l <> [] ->
  exists before p after,
    l = before ++ p :: after
    /\ fold_left step l None = Some p
    /\ Forall (fun q => key p < key q) before
    /\ Forall (fun q => key p <= key q) after.
Proof.
  destruct l as [|a l]; [done|]. intros _. simpl. rewrite step_null.
  destruct (select_from l a) as (p & Hp & [[-> Hall]|(l1 & l2 & -> & Hpa & H1 & H2)]).
  - exists [], a, l. by repeat split.
  - exists (a :: l1), p, l2. repeat split; try done. by constructor.
Qed.
End Selection.

Lemma shortest_first (prs : list PullRequest) :
  prs <> [] ->
  exists before p after,
    prs = before ++ p :: after
    /\ shortest prs = Some p
    /\ Forall (fun q => openTime p < openTime q) before
    /\ Forall (fun q => openTime p <= openTime q) after.
Proof. apply (select_first openTime shortest_step); done. Qed.

Lemma longest_first (prs : list PullRequest) :
  prs <> [] ->
  exists before p after,
    prs = before ++ p :: after
    /\ longest prs = Some p
    /\ Forall (fun q => openTime q < openTime p) before
    /\ Forall (fun q => openTime q <= openTime p) after.
Proof.
  intros Hne.
  destruct (select_first (fun q => - openTime q) longest_step) with (l := prs)
    as (before & p & after & Heq & Hl & H1 & H2); try done.
  - intros a b. simpl.
    destruct (Z.ltb_spec (openTime a) (openTime b)),
             (Z.ltb_spec (- openTime b) (- openTime a)); try done; lia.
  - exists before, p, after. repeat split; try done.
    + eapply Forall_impl; [exact H1|]. simpl. intros q. lia.
    + eapply Forall_impl; [exact H2|]. simpl. intros q. lia.
Qed.

(** C5.  For every non-empty filtered list, [shortest] (respectively
    [longest]) is a pull request of minimal (respectively maximal) open
    duration, and among several of that duration the one that comes first in
    the list: every earlier one is strictly longer (shorter), every later one
    at least as long (short).  For durations [5,1,9,1] the shortest is the
    second pull request and the longest the third. *)
Theorem C5_shortest_longest_first_wins (prs : list PullRequest) :
  prs <> [] ->
  (exists before p after,
     prs = before ++ p :: after
     /\ shortest prs = Some p
     /\ Forall (fun q => openTime p < openTime q) before
     /\ Forall (fun q => openTime p <= openTime q) after)
  /\ (exists before p after,
        prs = before ++ p :: after
        /\ longest prs = Some p
        /\ Forall (fun q => openTime q < openTime p) before
        /\ Forall (fun q => openTime q <= openTime p) after)
  /\ (forall a b c d,
        map openTime [a; b; c; d] = [5; 1; 9; 1] ->
        shortest [a; b; c; d] = Some b /\ longest [a; b; c; d] = Some c).
Proof.
  intros Hne. split; [by apply shortest_first|]. split; [by apply longest_first|].
  intros a b c d Hd. injection Hd as Ha Hb Hc Hd.
  unfold shortest, longest, Array_reduce.
  cbn [fold_left shortest_step longest_step].
  rewrite Ha, Hb. simpl. rewrite Ha, Hb, Hc. simpl. by rewrite Hb, Hc, Hd.
Qed.

Lemma C5_shortest_longest_first_wins_witness :
  shortest sample_durations = Some (pr_ 2 "b" 0 1)
  /\ longest sample_durations = Some (pr_ 3 "a" 0 9).
Proof.
  assert (sample_durations <> []) as Hne by discriminate.
  destruct (C5_shortest_longest_first_wins sample_durations Hne) as (_ & _ & H).
  apply H. reflexivity.
Defined.

(** ** Mean *)

Lemma total_from (prs : list PullRequest) (acc : Z) :
  fold_left (fun a b => a + openTime b) prs acc
  = acc + foldr Z.add 0 (map openTime prs).
Proof.
  revert acc. induction prs as [|pr prs IH]; intros acc; simpl; [lia|].
  rewrite IH. lia.
Qed.

Lemma total_sum (prs : list PullRequest) :
  total prs = foldr Z.add 0 (map openTime prs).
Proof. unfold total, Array_reduce. rewrite total_from. lia. Qed.

Lemma meanInMs_spec (prs : list PullRequest) :
  prs <> [] ->
  exists q,
    meanInMs prs = Fin q
    /\ (q == inject_Z (foldr Z.add 0%Z (map openTime prs))
             / inject_Z (Z.of_nat (length prs)))%Q.
Proof.
  intros Hne.
  assert (Z.of_nat (length prs) <> 0) as Hlen by (destruct prs; simpl; [done|lia]).
  destruct (divide_nonzero (total prs) _ Hlen) as (q & Hq & Hmul).
  exists q. split; [done|].
  rewrite <- total_sum, <- Hmul. field.
  intros H0. unfold Qeq in H0. simpl in H0. lia.
Qed.

Lemma meanInMs_pair (p1 p2 : PullRequest) :
  exists q,
    meanInMs [p1; p2] = Fin q
    /\ (q == (inject_Z (openTime p1) + inject_Z (openTime p2)) / 2)%Q.
Proof.
  destruct (meanInMs_spec [p1; p2]) as (q & Hq & Hmean); [done|].
  exists q. split; [done|]. rewrite Hmean. simpl.
  rewrite Z.add_0_r, inject_Z_plus. reflexivity.
Qed.

(** ** Median and percentile on a non-empty list *)

Lemma median_finite (values : list Z) :
  values <> [] -> exists q, median values = Fin q.
Proof.
  intros Hne.
  assert (length values <> 0)%nat as Hpos by by destruct values.
  assert (length values / 2
          < length (Array_sort (fun a b => a - b)%Z values))%nat as Hhalf
    by (rewrite Array_sort_length; apply Nat.div_lt; lia).
  destruct (lookup_lt_is_Some_2 _ _ Hhalf) as [b Hb].
  destruct (Nat.odd (length values)) eqn:Hodd.
  - exists (inject_Z b). by apply median_odd.
  - assert (length values / 2 - 1
            < length (Array_sort (fun a b => a - b)%Z values))%nat as Hprev
      by lia.
    destruct (lookup_lt_is_Some_2 _ _ Hprev) as [a Ha].
    destruct (divide_nonzero (a + b) 2) as (q & Hq & _); [done|].
    exists q. rewrite <- Hq. apply median_even; try done.
    rewrite <- Nat.negb_odd. by rewrite Hodd.
Qed.

Lemma percentile_member {A} (p : Z) (l : list A) (fn : A -> Z) :
  l <> [] -> 0 <= p <= 100 ->
  exists x, x ∈ l /\ percentile p l fn = Some x.
Proof.
  intros Hne Hp. unfold percentile.
  set (sorted := Array_sort (fun a b => fn a - fn b) l).
  assert (length sorted = length l) as Hlen by apply Array_sort_length.
  assert (0 < length l)%nat as Hpos by (destruct l; simpl; [done|lia]).
  assert (forall i, 0 <= i < Z.of_nat (length l) ->
                    exists x, x ∈ l /\ Array_get sorted i = Some x) as Hget.
  { intros i Hi. unfold Array_get.
    destruct (Z.ltb_spec i 0); [lia|].
    assert (Z.to_nat i < length sorted)%nat as Hlt by lia.
    destruct (lookup_lt_is_Some_2 _ _ Hlt) as [x Hx].
    exists x. split; [|done].
    apply list_elem_of_lookup_2 in Hx.
    by rewrite <- (Array_sort_Permutation (fun a b => fn a - fn b) l). }
  rewrite Hlen.
  destruct (Z.eqb_spec p 0) as [->|Hp0].
  - apply Hget. lia.
  - apply Hget.
    assert (1 <= Z.of_nat (length l) * p <= 100 * Z.of_nat (length l)) by nia.
    set (np := Z.of_nat (length l) * p) in *. clearbody np.
    div_lia.
Qed.

Lemma p90_member (prs : list PullRequest) :
  prs <> [] ->
  exists pr,
    pr ∈ prs
    /\ p90 prs = Some {| tagged_pr := pr; tagged_openTime := openTime pr |}.
Proof.
  intros Hne. unfold p90.
  destruct (percentile_member 90 (percentileVals prs) tagged_openTime)
    as (x & Hx & Hp); [by destruct prs|lia|].
  apply list_elem_of_In, in_map_iff in Hx. destruct Hx as (pr & <- & Hin).
  exists pr. split; [by apply list_elem_of_In|done].
Qed.

(** ** The report of a run over a non-empty window *)

Lemma Index_script_console a env server nodes s l p :
  server (Index.request a) = Normal nodes ->
  let prs := List.filter (Index.inWindow (args.startDate a) (args.endDate a)) nodes in
  shortest prs = Some s -> longest prs = Some l -> p90 prs = Some p ->
  console (Index.script a env server) = IndexReport.report a prs s l p.
Proof.
  intros Hs prs Hsh Hlo Hp. unfold Index.script, catch.
  by rewrite (Index_main_run a server nodes s l p Hs Hsh Hlo Hp).
Qed.

Lemma Part000_script_console a env server nodes s l :
  server (Part000.request a) = Normal nodes ->
  let prs := List.filter (Part000.inWindow (args.startDate a) (args.endDate a)) nodes in
  shortest prs = Some s -> longest prs = Some l ->
  console (Part000.script a env server) = Part000Report.report a prs s l.
Proof.
  intros Hs prs Hsh Hlo. unfold Part000.script, catch.
  by rewrite (Part000_main_run a server nodes s l Hs Hsh Hlo).
Qed.

Lemma selected_Some (prs : list PullRequest) :
  prs <> [] -> exists s l, shortest prs = Some s /\ longest prs = Some l.
Proof.
  intros Hne.
  destruct (shortest_first prs Hne) as (_ & s & _ & _ & Hs & _).
  destruct (longest_first prs Hne) as (_ & l & _ & _ & Hl & _).
  by exists s, l.
Qed.

Lemma Index_report_Total a prs s l p :
  Log [Lit " "; Lit "Total          "; Lit "=>"; Num (Z.of_nat (length prs))]
  ∈ IndexReport.report a prs s l p.
Proof.
  unfold IndexReport.report, IndexReport.preamble.
  rewrite !elem_of_app. left. left.
  apply list_elem_of_In. simpl. tauto.
Qed.

Lemma Index_report_stats a prs s l p :
  let line label rest := Log ([Lit " "; Lit label; Lit "=>"] ++ rest) in
  line "Shortest    " [Distance (Fin (inject_Z (openTime s))) None; hash (number s)]
  ∈ IndexReport.report a prs s l p
  /\ line "Longest     " [Distance (Fin (inject_Z (openTime l))) None; hash (number l)]
     ∈ IndexReport.report a prs s l p
  /\ line "Mean (days) " [Distance (meanInMs prs) None]
     ∈ IndexReport.report a prs s l p
  /\ line "Mean (hours)" [Distance (meanInMs prs) (Some "h")]
     ∈ IndexReport.report a prs s l p
  /\ line "Median      " [Distance (median (map openTime prs)) None]
     ∈ IndexReport.report a prs s l p
  /\ line "p90         "
          [Distance (Fin (inject_Z (tagged_openTime p))) None;
           hash (number (tagged_pr p))]
     ∈ IndexReport.report a prs s l p.
Proof.
  intros line. unfold IndexReport.report.
  repeat split; rewrite elem_of_app; right;
    apply list_elem_of_In; simpl; tauto.
Qed.

Lemma Part000_report_lines a prs s l :
  Log [Lit "  Total           =>"; Num (Z.of_nat (length prs))]
  ∈ Part000Report.report a prs s l
  /\ Log [Lit "  Mean (days)  =>"; Distance (meanInMs prs) None]
     ∈ Part000Report.report a prs s l.
Proof.
  unfold Part000Report.report, Part000Report.preamble.
  split; rewrite !elem_of_app.
  - left. left. apply list_elem_of_In. simpl. tauto.
  - right. apply list_elem_of_In. simpl. tauto.
Qed.

(** C7.  For every non-empty filtered list the mean open duration is the sum
    of the open durations (in milliseconds) divided by the number of pull
    requests.  In a run whose window holds two pull requests, the report shows
    Total 2 and, as Mean, the average of the two durations (both scripts). *)
Theorem C7_mean_is_sum_over_count (prs : list PullRequest) :
  prs <> [] ->
  (exists q,
     meanInMs prs = Fin q
     /\ (q == inject_Z (foldr Z.add 0%Z (map openTime prs))
              / inject_Z (Z.of_nat (length prs)))%Q)
  /\ (forall a env server nodes p1 p2,
        server (Index.request a) = Normal nodes ->
        List.filter (Index.inWindow (args.startDate a) (args.endDate a)) nodes = [p1; p2] ->
        exists mean,
          (mean == (inject_Z (openTime p1) + inject_Z (openTime p2)) / 2)%Q
          /\ Log [Lit " "; Lit "Total          "; Lit "=>"; Num 2]
             ∈ console (Index.script a env server)
          /\ Log [Lit " "; Lit "Mean (days) "; Lit "=>"; Distance (Fin mean) None]
             ∈ console (Index.script a env server))
  /\ (forall a env server nodes p1 p2,
        server (Part000.request a) = Normal nodes ->
        List.filter (Part000.inWindow (args.startDate a) (args.endDate a)) nodes = [p1; p2] ->
        exists mean,
          (mean == (inject_Z (openTime p1) + inject_Z (openTime p2)) / 2)%Q
          /\ Log [Lit "  Total           =>"; Num 2]
             ∈ console (Part000.script a env server)
          /\ Log [Lit "  Mean (days)  =>"; Distance (Fin mean) None]
             ∈ console (Part000.script a env server)).
Proof.
  intros Hne. split; [by apply meanInMs_spec|]. split.
  - intros a env server nodes p1 p2 Hs Hprs.
    destruct (meanInMs_pair p1 p2) as (mean & Hmean & Havg).
    destruct (selected_Some [p1; p2]) as (s & l & Hsh & Hlo); [done|].
    destruct (p90_member [p1; p2]) as (pr & _ & Hp); [done|].
    rewrite <- Hprs in Hsh, Hlo, Hp.
    rewrite (Index_script_console a env server nodes s l _ Hs Hsh Hlo Hp), Hprs.
    exists mean. split; [done|]. split.
    + apply (Index_report_Total a [p1; p2]).
    + rewrite <- Hmean. apply (Index_report_stats a [p1; p2]).
  - intros a env server nodes p1 p2 Hs Hprs.
    destruct (meanInMs_pair p1 p2) as (mean & Hmean & Havg).
    destruct (selected_Some [p1; p2]) as (s & l & Hsh & Hlo); [done|].
    rewrite <- Hprs in Hsh, Hlo.
    rewrite (Part000_script_console a env server nodes s l Hs Hsh Hlo), Hprs.
    exists mean. split; [done|]. split.
    + apply (Part000_report_lines a [p1; p2]).
    + rewrite <- Hmean. apply (Part000_report_lines a [p1; p2]).
Qed.

Lemma C7_mean_is_sum_over_count_witness :
  exists mean,
    (mean == 300)%Q
    /\ Log [Lit " "; Lit "Total          "; Lit "=>"; Num 2]
       ∈ console (Index.script sample_args sample_env (fun _ => Normal sample_nodes))
    /\ Log [Lit " "; Lit "Mean (days) "; Lit "=>"; Distance (Fin mean) None]
       ∈ console (Index.script sample_args sample_env (fun _ => Normal sample_nodes)).
Proof.
  assert (sample_nodes <> []) as Hne by discriminate.
  destruct (C7_mean_is_sum_over_count sample_nodes Hne) as (_ & Hrun & _).
  destruct (Hrun sample_args sample_env (fun _ => Normal sample_nodes) sample_nodes
                 (pr_ 1 "a" 1100 1500) (pr_ 2 "b" 1200 1400) eq_refl eq_refl)
    as (mean & Hmean & Htotal & Hline).
  exists mean. split; [|by split].
  rewrite Hmean. reflexivity.
Defined.

(** C8.  For every non-empty filtered list the 90th percentile is taken over
    the list of pull requests tagged with their open durations, and its result
    is one of the input pull requests with its own open duration; the p90 line
    of the report shows that duration with the number of that pull request. *)
Theorem C8_p90_is_a_tagged_pull_request (prs : list PullRequest) :
  prs <> [] ->
  exists pr,
    pr ∈ prs
    /\ percentile 90 (percentileVals prs) tagged_openTime
       = Some {| tagged_pr := pr; tagged_openTime := openTime pr |}
    /\ (forall a env server nodes,
          server (Index.request a) = Normal nodes ->
          List.filter (Index.inWindow (args.startDate a) (args.endDate a)) nodes = prs ->
          Log [Lit " "; Lit "p90         "; Lit "=>";
               Distance (Fin (inject_Z (openTime pr))) None; hash (number pr)]
          ∈ console (Index.script a env server)).
Proof.
  intros Hne. destruct (p90_member prs Hne) as (pr & Hin & Hp).
  exists pr. split; [done|]. split; [done|].
  intros a env server nodes Hs Hprs.
  destruct (selected_Some prs Hne) as (s & l & Hsh & Hlo).
  rewrite <- Hprs in Hsh, Hlo, Hp.
  rewrite (Index_script_console a env server nodes s l _ Hs Hsh Hlo Hp).
  apply (Index_report_stats a _ s l
           {| tagged_pr := pr; tagged_openTime := openTime pr |}).
Qed.

Lemma C8_p90_is_a_tagged_pull_request_witness :
  exists pr,
    pr ∈ sample_durations
    /\ percentile 90 (percentileVals sample_durations) tagged_openTime
       = Some {| tagged_pr := pr; tagged_openTime := openTime pr |}.
Proof.
  assert (sample_durations <> []) as Hne by discriminate.
  destruct (C8_p90_is_a_tagged_pull_request sample_durations Hne)
    as (pr & Hin & Hp & _).
  by exists pr.
Defined.

(** C6.  For every run whose window is not empty, whatever the sign of the
    open durations (nothing is assumed on [mergedAt] against [createdAt]),
    shortest, longest, mean, median and p90 all have a value, [main] returns
    without throwing, and the run prints the whole report and no error. *)
Theorem C6_statistics_survive_negative_durations
    (a : args.t) (env : process.env) (server : Server) (nodes : list PullRequest) :
  server (Index.request a) = Normal nodes ->
  let prs := List.filter (Index.inWindow (args.startDate a) (args.endDate a)) nodes in
  prs <> [] ->
  exists s l mean med p,
    shortest prs = Some s /\ longest prs = Some l
    /\ meanInMs prs = Fin mean /\ median (map openTime prs) = Fin med
    /\ p90 prs = Some p
    /\ Index.main a server empty_world
       = (Normal tt, {| heap := [nodes; prs; Array_sort Index.byOpenTime prs];
                        console := IndexReport.report a prs s l p |})
    /\ console (Index.script a env server) = IndexReport.report a prs s l p.
Proof.
  intros Hs prs Hne.
  destruct (selected_Some prs Hne) as (s & l & Hsh & Hlo).
  destruct (meanInMs_spec prs Hne) as (mean & Hmean & _).
  destruct (median_finite (map openTime prs)) as (med & Hmed); [by destruct prs|].
  destruct (p90_member prs Hne) as (pr & _ & Hp).
  exists s, l, mean, med, {| tagged_pr := pr; tagged_openTime := openTime pr |}.
  repeat split; try done.
  - by apply Index_main_run.
  - by apply Index_script_console.
Qed.

Lemma C6_statistics_survive_negative_durations_witness :
  openTime (pr_ 1 "a" 1500 1400) < 0
  /\ exists s l mean med p,
       shortest sample_corrupt = Some s /\ longest sample_corrupt = Some l
       /\ meanInMs sample_corrupt = Fin mean
       /\ median (map openTime sample_corrupt) = Fin med
       /\ p90 sample_corrupt = Some p
       /\ Index.main sample_args (fun _ => Normal sample_corrupt) empty_world
          = (Normal tt,
             {| heap := [sample_corrupt; sample_corrupt;
                         Array_sort Index.byOpenTime sample_corrupt];
                console := IndexReport.report sample_args sample_corrupt s l p |})
       /\ console (Index.script sample_args sample_env (fun _ => Normal sample_corrupt))
          = IndexReport.report sample_args sample_corrupt s l p.
Proof.
  split; [reflexivity|].
  apply (C6_statistics_survive_negative_durations
           sample_args sample_env (fun _ => Normal sample_corrupt) sample_corrupt eq_refl).
  discriminate.
Defined.

(** ** A run over an empty window *)

(** C1, counterexample.  In a run whose window holds no pull request the error
    is the [TypeError] of reading a property of [null], not an
    [EmptyDatasetError]. *)
Lemma C1_counterexample_null_dereference :
  List.filter (Index.inWindow 1000 2000) [pr_ 3 "a" 100 900] = []
  /\ fst (Index.main sample_args (fun _ => Normal [pr_ 3 "a" 100 900]) empty_world)
     = Throw {| name := "TypeError";
                message := "Cannot read property 'createdAt' of null" |}
  /\ fst (Part000.main sample_args (fun _ => Normal [pr_ 3 "a" 100 900]) empty_world)
     = Throw {| name := "TypeError";
                message := "Cannot read property 'createdAt' of null" |}
  /\ name null_createdAt <> "EmptyDatasetError".
Proof. repeat split. discriminate. Qed.

(** C1, as amended.  In a run whose window holds no pull request, the two
    reduces return [null] and the first read of [shortest.createdAt] throws a
    [TypeError]; mean, median and p90 are not reached and no statistic is
    printed (the blocks before the statistics are, with Total 0).
    [main().catch(console.error)] then prints that error as the last output. *)
Theorem C1_empty_window_null_dereference
    (a : args.t) (env : process.env) (server : Server) (nodes : list PullRequest) :
  server (Index.request a) = Normal nodes ->
  server (Part000.request a) = Normal nodes ->
  shortest [] = None /\ longest [] = None
  /\ (List.filter (Index.inWindow (args.startDate a) (args.endDate a)) nodes = [] ->
      Index.main a server empty_world
      = (Throw null_createdAt,
         {| heap := [nodes; []; []]; console := IndexReport.preamble a [] |})
      /\ console (Index.script a env server)
         = IndexReport.preamble a [] ++ [Error null_createdAt])
  /\ (List.filter (Part000.inWindow (args.startDate a) (args.endDate a)) nodes = [] ->
      Part000.main a server empty_world
      = (Throw null_createdAt,
         {| heap := [nodes; []]; console := Part000Report.preamble a [] |})
      /\ console (Part000.script a env server)
         = Part000Report.preamble a [] ++ [Error null_createdAt]).
Proof.
  intros HsI HsP. split; [done|]. split; [done|]. split.
  - intros Hprs. pose proof (Index_main_empty a server nodes HsI Hprs) as Hrun.
    split; [done|]. unfold Index.script, catch. by rewrite Hrun.
  - intros Hprs. pose proof (Part000_main_empty a server nodes HsP Hprs) as Hrun.
    split; [done|]. unfold Part000.script, catch. by rewrite Hrun.
Qed.

Lemma C1_empty_window_null_dereference_witness :
  console (Index.script sample_args sample_env (fun _ => Normal [pr_ 3 "a" 100 900]))
  = [Log [Lit ""]; Log [Lit "Info:"];
     Log [Lit " "; Lit "Owner          "; Lit "=>"; Lit "wmonk"];
     Log [Lit " "; Lit "Repository name"; Lit "=>"; Lit "github-stats"];
     Log [Lit " "; Lit "From           "; Lit "=>"; FormatDate 1000];
     Log [Lit " "; Lit "To             "; Lit "=>"; FormatDate 2000];
     Log [Lit " "; Lit "Total          "; Lit "=>"; Num 0];
     Log [Lit ""];
     Log [Lit ""]; Log [Lit "Pull requests:"]; Log [Lit ""];
     Log [Lit ""]; Log [Lit "Count by author:"]; Log [Lit ""];
     Error null_createdAt].
Proof.
  destruct (C1_empty_window_null_dereference
              sample_args sample_env (fun _ => Normal [pr_ 3 "a" 100 900])
              [pr_ 3 "a" 100 900] eq_refl eq_refl) as (_ & _ & HI & _).
  destruct (HI eq_refl) as [_ Hconsole].
  rewrite Hconsole. reflexivity.
Defined.

(** ** The token of the environment *)

(** C9, the code at the failing input.  With [GH_TOKEN] set and no [--token],
    [token] holds the token of the environment, yet the request of either
    script carries no header, and an API that wants the token rejects it.  The
    header is built from [--token] alone. *)
Theorem C9_environment_token_not_sent (a : args.t) (tok : string) (nodes : list PullRequest) :
  let env := {| process.GH_TOKEN := Some tok |} in
  Index.token env = Some tok
  /\ Part000.token env = Some tok
  /\ headers_sent (Index.request (without_token a)) = []
  /\ headers_sent (Part000.request (without_token a)) = []
  /\ console (Index.script (without_token a) env (auth_server nodes)) = [Error auth_error]
  /\ console (Part000.script (without_token a) env (auth_server nodes)) = [Error auth_error]
  /\ (tok <> ""%string ->
      headers_for (Some tok) = [("Authorization", "Bearer " +:+ tok)]%string).
Proof.
  repeat split. intros Hne. unfold headers_for.
  by destruct (String.eqb_spec tok "").
Qed.

(** ** The display sort *)

(** [prs.map(a => a).sort(compareFn)] from a store in which [prs] holds [l]:
    one array is added, the sorted copy, and nothing else changes. *)
Lemma display_sort_run (w : World) (prs : loc) (l : list PullRequest)
    (compareFn : PullRequest -> PullRequest -> Z) :
  heap w !! prs = Some l ->
  bind (Array_map prs (fun a => a)) (fun copy => Array_sort_in_place copy compareFn) w
  = (Normal (length (heap w)),
     {| heap := heap w ++ [Array_sort compareFn l]; console := console w |}).
Proof.
  intros Hprs.
  rewrite (bind_normal _ _ _ _ _ (Array_map_run w prs l Hprs _)).
  erewrite Array_sort_in_place_run
    by (cbn [heap]; rewrite lookup_app_r by lia; rewrite Nat.sub_diag; reflexivity).
  cbn [heap console]. rewrite map_id. f_equal. f_equal.
  rewrite insert_app_r_alt by lia. by rewrite Nat.sub_diag.
Qed.

(** Sorting [prs] itself, without the copy, does reorder it: the store tells
    the two apart. *)
Example sort_without_copy_reorders :
  let prs := [pr_ 1 "b" 0 5; pr_ 2 "a" 0 1] in
  snd (Array_sort_in_place 0%nat Index.byOpenTime {| heap := [prs]; console := [] |})
  = {| heap := [[pr_ 2 "a" 0 1; pr_ 1 "b" 0 5]]; console := [] |}
  /\ keys (authors prs) = ["b"; "a"]%string
  /\ keys (authors (Array_sort Index.byOpenTime prs)) = ["a"; "b"]%string.
Proof. repeat split. Qed.

(** C10.  The listing is sorted on a copy: from any store in which [prs] holds
    the filtered list [l], the display stage returns a new reference, leaves
    [prs] and every other array as they were, and holds the sorted list in the
    new array only.  So a whole run ends with [prs] in fetch order, and the
    author counts, shortest, longest, mean, median and p90 it prints are those
    of the list in fetch order; only the listing block follows the sorted
    order. *)
Theorem C10_display_sort_copies (w : World) (prs : loc) (l : list PullRequest) :
  heap w !! prs = Some l ->
  (exists w',
     bind (Array_map prs (fun a => a))
          (fun copy => Array_sort_in_place copy Index.byOpenTime) w
     = (Normal (length (heap w)), w')
     /\ length (heap w) <> prs
     /\ heap w' !! prs = Some l
     /\ heap w' !! length (heap w) = Some (Array_sort Index.byOpenTime l)
     /\ (forall r, (r < length (heap w))%nat -> heap w' !! r = heap w !! r)
     /\ console w' = console w)
  /\ (forall a server nodes,
        server (Index.request a) = Normal nodes ->
        List.filter (Index.inWindow (args.startDate a) (args.endDate a)) nodes = l ->
        l <> [] ->
        exists s lg p,
          shortest l = Some s /\ longest l = Some lg /\ p90 l = Some p
          /\ Index.main a server empty_world
             = (Normal tt,
                {| heap := [nodes; l; Array_sort Index.byOpenTime l];
                   console :=
                     block_output (IndexReport.infoBlock a (Z.of_nat (length l)))
                     ++ block_output (IndexReport.prBlock (Array_sort Index.byOpenTime l))
                     ++ block_output
                          (IndexReport.authorBlock (zip (keys (authors l)) (values (authors l))))
                     ++ block_output
                          (IndexReport.mergeBlock s lg (meanInMs l) (median (map openTime l)) p)
                |})).
Proof.
  intros Hprs. split.
  - eexists. split; [by apply display_sort_run|]. cbn [heap console].
    assert (prs < length (heap w))%nat as Hlt by by eapply lookup_lt_Some.
    repeat split.
    + lia.
    + by apply lookup_app_l_Some.
    + rewrite lookup_app_r by lia. by rewrite Nat.sub_diag.
    + intros r Hr. by apply lookup_app_l.
  - intros a server nodes Hs Hfilter Hne.
    destruct (selected_Some l Hne) as (s & lg & Hsh & Hlo).
    destruct (p90_member l Hne) as (pr & _ & Hp).
    exists s, lg, {| tagged_pr := pr; tagged_openTime := openTime pr |}.
    repeat split; try done.
    subst l. rewrite (Index_main_run a server nodes s lg _ Hs Hsh Hlo Hp).
    unfold IndexReport.report, IndexReport.preamble, authorRows.
    by rewrite <- !app_assoc.
Qed.

Lemma C10_display_sort_copies_witness :
  exists w',
    bind (Array_map 1%nat (fun a => a))
         (fun copy => Array_sort_in_place copy Index.byOpenTime)
         {| heap := [sample_nodes; sample_durations]; console := [] |}
    = (Normal 2%nat, w')
    /\ heap w' !! 1%nat = Some sample_durations
    /\ heap w' !! 2%nat
       = Some [pr_ 2 "b" 0 1; pr_ 4 "c" 0 1; pr_ 1 "a" 0 5; pr_ 3 "a" 0 9].
Proof.
  destruct (C10_display_sort_copies
              {| heap := [sample_nodes; sample_durations]; console := [] |}
              1%nat sample_durations eq_refl)
    as [(w' & Hrun & _ & Hprs & Hcopy & _) _].
  exists w'. split; [exact Hrun|]. split; [exact Hprs|]. exact Hcopy.
Defined.

(** ** Count by author *)

Lemma firstSeen_elem_of (l : list string) (k : string) : k ∈ firstSeen l <-> k ∈ l.
Proof.
  induction l as [|x l IH]; simpl; [done|].
  rewrite !elem_of_cons, list_elem_of_filter, IH.
  destruct (decide (k = x)) as [->|Hne]; [by split; left|].
  split; [intros [?|[_ ?]]; [done|by right]|intros [?|?]; [done|by right]].
Qed.

Lemma firstSeen_NoDup (l : list string) : NoDup (firstSeen l).
Proof.
  induction l as [|x l IH]; simpl; [constructor|].
  constructor.
  - rewrite list_elem_of_filter. by intros [Hx _].
  - by apply NoDup_filter.
Qed.

Lemma firstSeen_snoc (l : list string) (x : string) :
  firstSeen (l ++ [x]) = if decide (x ∈ l) then firstSeen l else firstSeen l ++ [x].
Proof.
  induction l as [|a l IH]; [done|].
  cbn [app firstSeen]. rewrite IH. destruct (decide (x ∈ l)) as [Hin|Hnin].
  - rewrite decide_True; [done|]. by right.
  - rewrite filter_app, filter_cons, filter_nil.
    destruct (decide (x <> a)) as [Hne|Heq].
    + rewrite decide_False; [done|]. rewrite elem_of_cons. by intros [?|?].
    + apply dec_stable in Heq. subst a.
      rewrite decide_True by by left. by rewrite app_nil_r.
Qed.

Lemma occurrences_snoc (k x : string) (l : list string) :
  occurrences k (l ++ [x]) = occurrences k l + (if decide (x = k) then 1 else 0).
Proof.
  unfold occurrences. rewrite filter_app, length_app, filter_cons, filter_nil.
  destruct (decide (x = k)); simpl; lia.
Qed.

Lemma occurrences_pos (k : string) (l : list string) : k ∈ l -> 0 < occurrences k l.
Proof.
  intros Hin. unfold occurrences.
  assert (k ∈ filter (fun x => x = k) l) as Hk by by apply list_elem_of_filter.
  destruct (filter (fun x => x = k) l); [by apply not_elem_of_nil in Hk|simpl; lia].
Qed.

Lemma occurrences_absent (k : string) (l : list string) : k ∉ l -> occurrences k l = 0.
Proof.
  intros Hnin. unfold occurrences.
  induction l as [|x l IH]; [done|].
  rewrite not_elem_of_cons in Hnin. destruct Hnin as [Hne Hnin].
  rewrite filter_cons, decide_False by done. by apply IH.
Qed.

Lemma getOwnProperty_entries (f : string -> Z) (ks : list string) (k : string) :
  getOwnProperty (entries f ks) k = if decide (k ∈ ks) then Some (Cnt (f k)) else None.
Proof.
  induction ks as [|a ks IH]; [done|].
  cbn [entries map getOwnProperty]. fold (entries f ks).
  destruct (String.eqb_spec a k) as [->|Hne].
  - rewrite decide_True; [done|]. by left.
  - rewrite IH. destruct (decide (k ∈ ks)) as [Hin|Hnin].
    + rewrite decide_True; [done|]. by right.
    + rewrite decide_False; [done|]. rewrite elem_of_cons. by intros [?|?].
Qed.

Lemma entries_ext (f g : string -> Z) (ks : list string) :
  (forall k, k ∈ ks -> f k = g k) -> entries f ks = entries g ks.
Proof.
  intros Hfg. unfold entries. apply map_ext_in. intros k Hk.
  by rewrite Hfg by by apply list_elem_of_In.
Qed.

Lemma updateOwnProperty_entries (f g : string -> Z) (ks : list string) (k : string) :
  NoDup ks ->
  (forall k', k' ∈ ks -> k' <> k -> f k' = g k') ->
  updateOwnProperty (entries f ks) k (Cnt (g k)) = entries g ks.
Proof.
  intros Hnd Hfg. induction Hnd as [|a ks Ha Hnd IH]; simpl; [done|].
  destruct (String.eqb_spec a k) as [->|Hne].
  - f_equal. apply entries_ext. intros k' Hk'. apply Hfg; [by right|].
    intros ->. done.
  - rewrite Hfg by (by left || done). f_equal. fold (entries f ks).
    apply IH. intros k' Hk'. apply Hfg. by right.
Qed.

(** With no login among the inherited names, the object is the intended
    mapping, its properties created in order of first occurrence. *)
Lemma authors_entries (prs : list PullRequest) :
  Forall (fun k => k ∉ Object_prototype) (logins prs) ->
  authors prs = entries (fun k => occurrences k (logins prs)) (firstSeen (logins prs)).
Proof.
  unfold authors, Array_reduce.
  induction prs as [|pr prs IH] using rev_ind; intros Hall; [done|].
  unfold logins in *. rewrite map_app in *. simpl in *.
  apply Forall_app in Hall as [Hall Hpr].
  rewrite Forall_singleton in Hpr.
  rewrite fold_left_app. simpl. rewrite IH by done. clear IH.
  set (l := map (fun pr => login (author pr)) prs) in *.
  set (k := login (author pr)) in *.
  unfold countAuthor. fold k. unfold Get.
  rewrite getOwnProperty_entries, firstSeen_snoc.
  destruct (decide (k ∈ firstSeen l)) as [Hin|Hnin].
  - pose proof (proj1 (firstSeen_elem_of l k) Hin) as Hin'.
    rewrite decide_True by done.
    pose proof (occurrences_pos k l Hin') as Hpos. simpl.
    destruct (Z.eqb_spec (occurrences k l) 0); [lia|]. simpl.
    unfold Set_. rewrite getOwnProperty_entries, decide_True by done.
    replace (occurrences k l + 1) with (occurrences k (l ++ [k]))
      by (rewrite occurrences_snoc, decide_True by done; lia).
    apply (updateOwnProperty_entries _ (fun k0 => occurrences k0 (l ++ [k])));
      [apply firstSeen_NoDup|].
    intros k' _ Hne. rewrite occurrences_snoc, decide_False by done. lia.
  - rewrite firstSeen_elem_of in Hnin. rewrite decide_False by done.
    rewrite bool_decide_eq_false_2 by done. simpl.
    unfold Set_. rewrite getOwnProperty_entries.
    rewrite decide_False by by rewrite firstSeen_elem_of.
    destruct (String.eqb_spec k "__proto__") as [Heq|_].
    { exfalso. apply Hpr. rewrite Heq. unfold Object_prototype.
      apply list_elem_of_In. simpl. tauto. }
    unfold entries. rewrite map_app. simpl. f_equal.
    + apply map_ext_in. intros k' Hk'.
      apply list_elem_of_In in Hk'. rewrite firstSeen_elem_of in Hk'.
      rewrite occurrences_snoc, decide_False by (intros ->; done).
      f_equal. f_equal. lia.
    + rewrite occurrences_snoc, decide_True by done.
      by rewrite occurrences_absent.
Qed.

Lemma entries_keys (f : string -> Z) (ks : list string) : map fst (entries f ks) = ks.
Proof. unfold entries. rewrite map_map. simpl. apply map_id. Qed.

Lemma omap_total {A B} (g : A -> option B) (h : A -> B) (l : list A) :
  (forall x, x ∈ l -> g x = Some (h x)) -> omap g l = map h l.
Proof.
  induction l as [|x l IH]; intros Hg; [done|].
  cbn [omap list_omap map]. rewrite Hg by by left.
  f_equal. apply IH. intros y Hy. apply Hg. by right.
Qed.

Lemma zip_map {A B} (h : A -> B) (l : list A) :
  zip l (map h l) = map (fun x => (x, h x)) l.
Proof. unfold zip. induction l as [|x l IH]; simpl; [done|]. by rewrite IH. Qed.

Lemma ownKeys_elem_of (o : JSObject) (k : string) : k ∈ ownKeys o <-> k ∈ map fst o.
Proof.
  unfold ownKeys. rewrite elem_of_app, Array_sort_Permutation, !list_elem_of_filter.
  destruct (isArrayIndex k); split; try tauto; intros [[? ?]|[? ?]]; done.
Qed.

Lemma ownKeys_NoDup (o : JSObject) : NoDup (map fst o) -> NoDup (ownKeys o).
Proof.
  intros Hnd. unfold ownKeys. apply NoDup_app. repeat split.
  - rewrite Array_sort_Permutation. by apply NoDup_filter.
  - intros k. rewrite Array_sort_Permutation, !list_elem_of_filter.
    intros [Hi _] [Hn _]. congruence.
  - by apply NoDup_filter.
Qed.

(** The rows of the report, under the same condition. *)
Lemma authorRows_spec (prs : list PullRequest) :
  Forall (fun k => k ∉ Object_prototype) (logins prs) ->
  authorRows prs
  = map (fun k => (k, Cnt (occurrences k (logins prs)))) (keys (authors prs))
  /\ NoDup (keys (authors prs))
  /\ (forall k, k ∈ keys (authors prs) <-> k ∈ logins prs)
  /\ keys (authors prs)
     = Array_sort (by_key indexValue)
         (filter (fun k => isArrayIndex k = true) (firstSeen (logins prs)))
       ++ filter (fun k => isArrayIndex k = false) (firstSeen (logins prs)).
Proof.
  intros Hall. unfold authorRows, keys, values.
  rewrite (authors_entries prs Hall).
  set (f := fun k => occurrences k (logins prs)).
  set (ks := firstSeen (logins prs)).
  assert (forall k, k ∈ ownKeys (entries f ks) <-> k ∈ logins prs) as Hkeys.
  { intros k. rewrite ownKeys_elem_of, entries_keys. apply firstSeen_elem_of. }
  repeat split.
  - rewrite (omap_total _ (fun k => Cnt (f k))); [apply zip_map|].
    intros k Hk. rewrite getOwnProperty_entries, decide_True; [done|].
    apply firstSeen_elem_of, Hkeys, Hk.
  - apply ownKeys_NoDup. rewrite entries_keys. apply firstSeen_NoDup.
  - apply Hkeys.
  - apply Hkeys.
  - unfold ownKeys. by rewrite entries_keys.
Qed.

Lemma Array_sort_filter_nil {A} (compareFn : A -> A -> Z) (P : A -> Prop)
    `{!forall x, Decision (P x)} (l : list A) :
  Forall (fun x => ~ P x) l -> Array_sort compareFn (filter P l) = [].
Proof.
  intros Hall. induction Hall as [|x l Hx Hall IH]; [done|].
  by rewrite filter_cons, decide_False.
Qed.

Lemma filter_all {A} (P : A -> Prop) `{!forall x, Decision (P x)} (l : list A) :
  Forall P l -> filter P l = l.
Proof.
  intros Hall. induction Hall as [|x l Hx Hall IH]; [done|].
  rewrite filter_cons, decide_True by done. by rewrite IH.
Qed.

Lemma keys_first_seen (prs : list PullRequest) :
  Forall (fun k => k ∉ Object_prototype) (logins prs) ->
  Forall (fun k => isArrayIndex k = false) (logins prs) ->
  keys (authors prs) = firstSeen (logins prs).
Proof.
  intros Hall Hidx.
  destruct (authorRows_spec prs Hall) as (_ & _ & _ & ->).
  assert (Forall (fun k => isArrayIndex k = false) (firstSeen (logins prs))) as Hfs.
  { apply Forall_forall. intros k Hk. rewrite firstSeen_elem_of in Hk.
    rewrite Forall_forall in Hidx. by apply Hidx. }
  rewrite Array_sort_filter_nil, filter_all; [done|done|].
  eapply Forall_impl; [exact Hfs|]. simpl. intros k Hk. congruence.
Qed.

(** C4, counterexample.  The login [42] occurs after [bob] and is listed
    before it: a key that is an array index comes first. *)
Lemma C4_counterexample_numeric_login :
  firstSeen (logins [pr_ 1 "bob" 0 1; pr_ 2 "42" 0 1]) = ["bob"; "42"]%string
  /\ keys (authors [pr_ 1 "bob" 0 1; pr_ 2 "42" 0 1]) = ["42"; "bob"]%string
  /\ authorRows [pr_ 1 "bob" 0 1; pr_ 2 "42" 0 1] = [("42", Cnt 1); ("bob", Cnt 1)]%string.
Proof. repeat split. Qed.

(** C4, as amended.  For every filtered list none of whose logins is the name
    of a property inherited from [Object.prototype], the mapping holds one
    entry per distinct login, with the number of pull requests of that login.
    Its keys come in this order: first the logins that are array indices, by
    ascending numeric value, then the other logins in order of first
    occurrence; so with no array index among the logins the order is that of
    first occurrence, and authors [A, B, A] give {A: 2, B: 1}, A before B. *)
Theorem C4_author_counts_and_key_order (prs : list PullRequest) :
  Forall (fun k => k ∉ Object_prototype) (logins prs) ->
  authorRows prs
  = map (fun k => (k, Cnt (occurrences k (logins prs)))) (keys (authors prs))
  /\ NoDup (keys (authors prs))
  /\ (forall k, k ∈ keys (authors prs) <-> k ∈ logins prs)
  /\ (exists indices,
        keys (authors prs)
        = indices ++ filter (fun k => isArrayIndex k = false) (firstSeen (logins prs))
        /\ indices ≡ₚ filter (fun k => isArrayIndex k = true) (firstSeen (logins prs))
        /\ Sorted (key_le indexValue) indices)
  /\ (Forall (fun k => isArrayIndex k = false) (logins prs) ->
      keys (authors prs) = firstSeen (logins prs))
  /\ (forall prs' A B,
        logins prs' = [A; B; A] -> A <> B ->
        isArrayIndex A = false -> isArrayIndex B = false ->
        A ∉ Object_prototype -> B ∉ Object_prototype ->
        authorRows prs' = [(A, Cnt 2); (B, Cnt 1)]).
Proof.
  intros Hall.
  destruct (authorRows_spec prs Hall) as (Hrows & Hnd & Hkeys & Horder).
  split; [done|]. split; [done|]. split; [done|]. split; [|split].
  - eexists. split; [exact Horder|]. split.
    + apply Array_sort_Permutation.
    + apply Array_sort_Sorted.
  - by apply keys_first_seen.
  - intros prs' A B Hl Hne HA HB HpA HpB.
    assert (Forall (fun k => k ∉ Object_prototype) (logins prs')) as Hall'
      by (rewrite Hl; by repeat constructor).
    assert (Forall (fun k => isArrayIndex k = false) (logins prs')) as Hidx'
      by (rewrite Hl; by repeat constructor).
    destruct (authorRows_spec prs' Hall') as (-> & _).
    rewrite (keys_first_seen prs' Hall' Hidx'), Hl.
    cbn [firstSeen]. unfold occurrences.
    repeat (first [ rewrite filter_cons | rewrite filter_nil
                  | case_decide | progress cbn [map] ]);
      try congruence; done.
Qed.

Lemma C4_author_counts_and_key_order_witness :
  authorRows [pr_ 1 "bob" 0 1; pr_ 2 "42" 0 1; pr_ 3 "bob" 0 1; pr_ 4 "7" 0 1; pr_ 5 "al" 0 1]
  = [("7", Cnt 1); ("42", Cnt 1); ("bob", Cnt 2); ("al", Cnt 1)]%string.
Proof.
  assert (Forall (fun k => k ∉ Object_prototype)
            (logins [pr_ 1 "bob" 0 1; pr_ 2 "42" 0 1; pr_ 3 "bob" 0 1;
                     pr_ 4 "7" 0 1; pr_ 5 "al" 0 1])) as Hall.
  { repeat constructor; apply (bool_decide_unpack _); reflexivity. }
  destruct (C4_author_counts_and_key_order _ Hall) as (Hrows & _).
  rewrite Hrows. reflexivity.
Defined.

(** A login that names an inherited property is miscounted: the first
    [owners[login]] finds the inherited function, truthy, and [++] stores
    [NaN]; the next one finds [NaN], falsy, and stores 1.  C4 leaves these
    logins out. *)
Example inherited_name_miscounted :
  authorRows [pr_ 1 "constructor" 0 1] = [("constructor", CntNaN)]%string
  /\ authorRows [pr_ 1 "toString" 0 1; pr_ 2 "toString" 0 1; pr_ 3 "toString" 0 1]
     = [("toString", Cnt 2)]%string.
Proof. split; reflexivity. Qed.

(** * Further properties of the scripts *)

(** ** Padding and the label column *)

Lemma String_length_append (s1 s2 : string) :
  String.length (s1 +:+ s2) = (String.length s1 + String.length s2)%nat.
Proof. induction s1 as [|c s1 IH]; simpl; [done|]. by rewrite IH. Qed.

Lemma spaces_length (n : nat) : String.length (spaces n) = n.
Proof. induction n as [|n IH]; simpl; [done|]. by rewrite IH. Qed.

Lemma padEnd_length (n : nat) (s : string) :
  String.length (padEnd n s) = Nat.max n (String.length s).
Proof. unfold padEnd. rewrite String_length_append, spaces_length. lia. Qed.

Lemma maxLength_from (lines : list (string * list Text)) (acc : nat) :
  let m := fold_left
             (fun (length : nat) (line : string * list Text) =>
                if (length <? String.length (fst line))%nat
                then String.length (fst line) else length)
             lines acc in
  (acc <= m)%nat
  /\ (forall line, line ∈ lines -> (String.length (fst line) <= m)%nat)
  /\ (m = acc \/ exists line, line ∈ lines /\ String.length (fst line) = m).
Proof.
  revert acc. induction lines as [|x lines IH]; intros acc; simpl.
  - split; [done|]. split; [|by left]. intros line Hin. by apply not_elem_of_nil in Hin.
  - destruct (Nat.ltb_spec acc (String.length (fst x))) as [Hlt|Hge].
    + destruct (IH (String.length (fst x))) as (Hacc & Hall & Hatt).
      split; [lia|]. split.
      * intros line Hin. apply elem_of_cons in Hin as [->|Hin]; [done|by apply Hall].
      * right. destruct Hatt as [->|(line & Hin & Hlen)].
        -- exists x. split; [by left|done].
        -- exists line. split; [by right|done].
    + destruct (IH acc) as (Hacc & Hall & Hatt).
      split; [done|]. split.
      * intros line Hin. apply elem_of_cons in Hin as [->|Hin]; [lia|by apply Hall].
      * destruct Hatt as [->|(line & Hin & Hlen)]; [by left|].
        right. exists line. split; [by right|done].
Qed.

Lemma maxLength_spec (lines : list (string * list Text)) :
  (forall line, line ∈ lines -> (String.length (fst line) <= maxLength lines)%nat)
  /\ (lines = [] -> maxLength lines = O)
  /\ (lines <> [] ->
      exists line, line ∈ lines /\ String.length (fst line) = maxLength lines).
Proof.
  unfold maxLength, Array_reduce.
  destruct (maxLength_from lines O) as (_ & Hall & Hatt).
  split; [done|]. split; [by intros ->|].
  intros Hne. destruct Hatt as [H0|Hatt]; [|done].
  destruct lines as [|x lines]; [done|].
  exists x. split; [by left|]. rewrite H0.
  assert (String.length (fst x) <= 0)%nat by (rewrite <- H0; apply Hall; by left).
  lia.
Qed.

(** X1.  Whatever a block holds, [end] writes every labelled line with its
    label padded on the right with spaces to one common width, the length of
    the longest label of the block (0 for a block without labelled lines); it
    does not throw and leaves the array store alone. *)
Theorem X1_logBlock_end_aligns_labels (b : LogBlock) (w : World) :
  exists width,
    fst (end_ b w) = Normal tt
    /\ heap (snd (end_ b w)) = heap w
    /\ (lines b = [] -> width = O)
    /\ (lines b <> [] ->
        exists name rest, (name, rest) ∈ lines b /\ String.length name = width)
    /\ (forall name rest,
          (name, rest) ∈ lines b ->
          exists k,
            String.length (name +:+ spaces k) = width
            /\ Log ([Lit " "; Lit (name +:+ spaces k); Lit "=>"] ++ rest)
               ∈ console (snd (end_ b w))).
Proof.
  exists (maxLength (lines b)). rewrite end_run. cbn [fst snd heap console].
  destruct (maxLength_spec (lines b)) as (Hall & Hnil & Hatt).
  split; [done|]. split; [done|]. split; [done|]. split.
  - intros Hne. destruct (Hatt Hne) as ([name rest] & Hin & Hlen). by exists name, rest.
  - intros name rest Hin.
    exists (maxLength (lines b) - String.length name)%nat. split.
    + rewrite String_length_append, spaces_length.
      specialize (Hall _ Hin). simpl in Hall. lia.
    + unfold block_output. rewrite !elem_of_app. right. right. left.
      apply list_elem_of_In, in_map_iff. exists (name, rest).
      split; [done|]. by apply list_elem_of_In.
Qed.

(** ** The order of the lines of a block *)

Lemma calls_block (cs : list BlockCall) (b : LogBlock) :
  fold_left call cs b
  = {| t := t b;
       lines := lines b ++ omap logged cs;
       emptyLines := emptyLines b ++ omap loggedEmpty cs |}.
Proof.
  revert b. induction cs as [|c cs IH]; intros b.
  - simpl. rewrite !app_nil_r. by destruct b.
  - cbn [fold_left]. rewrite IH. destruct c; simpl; by rewrite <- !app_assoc.
Qed.

Lemma omap_logged_length (cs : list BlockCall) :
  (length (omap logged cs) + length (omap loggedEmpty cs))%nat = length cs.
Proof.
  induction cs as [|c cs IH]; [done|].
  destruct c; cbn [omap list_omap logged loggedEmpty length]; lia.
Qed.

(** X2.  However calls of [log] and [logEmpty] are interleaved on a block,
    [end] writes a blank line and the title, then all the [log] lines in the
    order of their calls, then all the [logEmpty] lines in the order of theirs,
    then a blank line: three lines more than there were calls. *)
Theorem X2_logBlock_log_lines_before_empty_lines
    (heading : string) (cs : list BlockCall) (w : World) :
  let b := fold_left call cs (logBlock heading) in
  let labelled := omap logged cs in
  console (snd (end_ b w))
  = console w
    ++ [Log [Lit ""]; Log [Lit (heading +:+ ":")]]
    ++ map (fun line =>
              Log ([Lit " "; Lit (padEnd (maxLength labelled) (fst line)); Lit "=>"]
                   ++ snd line))
           labelled
    ++ map (fun line => Log (Lit " " :: line)) (omap loggedEmpty cs)
    ++ [Log [Lit ""]]
  /\ length (console (snd (end_ b w))) = (length (console w) + (length cs + 3))%nat.
Proof.
  intros b labelled. subst b. rewrite calls_block, end_run.
  cbn [snd console]. unfold block_output. cbn [t lines emptyLines logBlock app].
  split; [done|].
  pose proof (omap_logged_length cs) as Hlen. subst labelled.
  repeat (rewrite ?length_app, ?length_map, ?length_cons; cbn [length]).
  lia.
Qed.

(** ** What every answered run prints *)

Lemma Index_console_cases a env server nodes :
  server (Index.request a) = Normal nodes ->
  let prs := List.filter (Index.inWindow (args.startDate a) (args.endDate a)) nodes in
  (prs = []
   /\ console (Index.script a env server)
      = IndexReport.preamble a [] ++ [Error null_createdAt])
  \/ (prs <> []
      /\ exists s l p,
           shortest prs = Some s /\ longest prs = Some l /\ p90 prs = Some p
           /\ console (Index.script a env server) = IndexReport.report a prs s l p).
Proof.
  intros Hs prs. destruct (decide (prs = [])) as [Hnil|Hne].
  - left. split; [done|]. unfold Index.script, catch.
    by rewrite (Index_main_empty a server nodes Hs Hnil).
  - right. split; [done|].
    destruct (selected_Some prs Hne) as (s & l & Hsh & Hlo).
    destruct (p90_member prs Hne) as (pr & _ & Hp).
    exists s, l, {| tagged_pr := pr; tagged_openTime := openTime pr |}.
    repeat split; try done. by apply Index_script_console.
Qed.

Lemma Part000_console_cases a env server nodes :
  server (Part000.request a) = Normal nodes ->
  let prs := List.filter (Part000.inWindow (args.startDate a) (args.endDate a)) nodes in
  (prs = []
   /\ console (Part000.script a env server)
      = Part000Report.preamble a [] ++ [Error null_createdAt])
  \/ (prs <> []
      /\ exists s l,
           shortest prs = Some s /\ longest prs = Some l
           /\ console (Part000.script a env server) = Part000Report.report a prs s l).
Proof.
  intros Hs prs. destruct (decide (prs = [])) as [Hnil|Hne].
  - left. split; [done|]. unfold Part000.script, catch.
    by rewrite (Part000_main_empty a server nodes Hs Hnil).
  - right. split; [done|].
    destruct (selected_Some prs Hne) as (s & l & Hsh & Hlo).
    exists s, l. repeat split; try done. by apply Part000_script_console.
Qed.

Lemma Index_console_preamble a env server nodes :
  server (Index.request a) = Normal nodes ->
  exists rest,
    console (Index.script a env server)
    = IndexReport.preamble a
        (List.filter (Index.inWindow (args.startDate a) (args.endDate a)) nodes)
      ++ rest.
Proof.
  intros Hs.
  destruct (Index_console_cases a env server nodes Hs)
    as [[Hnil ->]|(_ & s & l & p & _ & _ & _ & ->)].
  - rewrite Hnil. by eexists.
  - unfold IndexReport.report. by eexists.
Qed.

Lemma Part000_console_preamble a env server nodes :
  server (Part000.request a) = Normal nodes ->
  exists rest,
    console (Part000.script a env server)
    = Part000Report.preamble a
        (List.filter (Part000.inWindow (args.startDate a) (args.endDate a)) nodes)
      ++ rest.
Proof.
  intros Hs.
  destruct (Part000_console_cases a env server nodes Hs)
    as [[Hnil ->]|(_ & s & l & _ & _ & ->)].
  - rewrite Hnil. by eexists.
  - unfold Part000Report.report. by eexists.
Qed.

(** ** The author rows of part_000 *)

Lemma getOwnProperty_is_Some (o : JSObject) (k : string) :
  k ∈ map fst o -> is_Some (getOwnProperty o k).
Proof.
  induction o as [|[k' v] o IH]; simpl; intros Hin.
  - by apply not_elem_of_nil in Hin.
  - destruct (String.eqb_spec k' k) as [->|Hne]; [by eexists|].
    apply IH. apply elem_of_cons in Hin as [->|Hin]; done.
Qed.

(** Each key is listed with the value it holds. *)
Lemma authorRows_values (prs : list PullRequest) :
  authorRows prs
  = map (fun k => (k, default CntNaN (getOwnProperty (authors prs) k)))
        (keys (authors prs)).
Proof.
  unfold authorRows, values, keys.
  rewrite (omap_total _ (fun k => default CntNaN (getOwnProperty (authors prs) k)));
    [apply zip_map|].
  intros k Hk. apply ownKeys_elem_of, getOwnProperty_is_Some in Hk.
  destruct Hk as [v ->]. done.
Qed.

Lemma longestName_spec (names : list string) :
  (forall k, k ∈ names -> (String.length k <= Part000.longestName names)%nat)
  /\ (names <> [] ->
      exists k, k ∈ names /\ String.length k = Part000.longestName names).
Proof.
  unfold Part000.longestName. induction names as [|x names [IHall IHatt]]; simpl.
  - split; [|done]. intros k Hin. by apply not_elem_of_nil in Hin.
  - split.
    + intros k Hin. apply elem_of_cons in Hin as [->|Hin]; [lia|].
      specialize (IHall k Hin). lia.
    + intros _. destruct names as [|y names].
      * exists x. split; [by left|]. simpl. lia.
      * destruct IHatt as (k & Hin & Hlen); [done|].
        destruct (Nat.max_spec (String.length x)
                    (foldr Nat.max O (map String.length (y :: names))))
          as [[_ Hmax]|[_ Hmax]]; rewrite Hmax.
        -- exists k. split; [by right|done].
        -- exists x. split; [by left|done].
Qed.

(** X3.  In every answered run of part_000 the author rows are written with
    the login padded on the right to one common width, the length of the
    longest login listed; this holds for the empty window too, which has no
    row. *)
Theorem X3_part000_author_rows_aligned
    (a : args.t) (env : process.env) (server : Server) (nodes : list PullRequest) :
  server (Part000.request a) = Normal nodes ->
  let prs := List.filter (Part000.inWindow (args.startDate a) (args.endDate a)) nodes in
  exists width,
    (authorRows prs <> [] ->
     exists k c, (k, c) ∈ authorRows prs /\ String.length k = width)
    /\ (forall k c,
          (k, c) ∈ authorRows prs ->
          exists n,
            String.length (k +:+ spaces n) = width
            /\ Log [Lit " "; Lit (k +:+ spaces n); Lit "=>"; CountText c]
               ∈ console (Part000.script a env server)).
Proof.
  intros Hs prs.
  destruct (Part000_console_preamble a env server nodes Hs) as [rest ->].
  fold prs. exists (Part000.longestName (keys (authors prs))).
  destruct (longestName_spec (keys (authors prs))) as [Hall Hatt].
  split.
  - intros Hne. rewrite authorRows_values in Hne |- *.
    destruct Hatt as (k & Hin & Hlen); [by destruct (keys (authors prs))|].
    exists k, (default CntNaN (getOwnProperty (authors prs) k)).
    split; [|done]. apply list_elem_of_In, in_map_iff. exists k.
    split; [done|]. by apply list_elem_of_In.
  - intros k c Hin.
    assert (k ∈ keys (authors prs)) as Hk.
    { rewrite authorRows_values in Hin.
      apply list_elem_of_In, in_map_iff in Hin. destruct Hin as (k' & Heq & Hin).
      apply list_elem_of_In in Hin. by simplify_eq. }
    exists (Part000.longestName (keys (authors prs)) - String.length k)%nat. split.
    + rewrite String_length_append, spaces_length. specialize (Hall k Hk). lia.
    + unfold Part000Report.preamble. rewrite !elem_of_app. left. right. left.
      apply list_elem_of_In, in_map_iff. exists (k, c).
      split; [done|]. by apply list_elem_of_In.
Qed.

Lemma X3_part000_author_rows_aligned_witness :
  exists width,
    (authorRows [pr_ 1 "a" 1100 1500; pr_ 2 "b" 1200 1400] <> [] ->
     exists k c,
       (k, c) ∈ authorRows [pr_ 1 "a" 1100 1500; pr_ 2 "b" 1200 1400]
       /\ String.length k = width)
    /\ (forall k c,
          (k, c) ∈ authorRows [pr_ 1 "a" 1100 1500; pr_ 2 "b" 1200 1400] ->
          exists n,
            String.length (k +:+ spaces n) = width
            /\ Log [Lit " "; Lit (k +:+ spaces n); Lit "=>"; CountText c]
               ∈ console (Part000.script sample_args sample_env
                            (fun _ => Normal sample_nodes))).
Proof.
  exact (X3_part000_author_rows_aligned
           sample_args sample_env (fun _ => Normal sample_nodes) sample_nodes eq_refl).
Defined.

(** ** Runs that fail *)

(** X4.  When the API rejects the request, either script stops there: the
    only output is the rejection, printed by the handler of [main]; no block of
    the report is written and no array is created. *)
Theorem X4_rejected_request_prints_only_the_error
    (a : args.t) (env : process.env) (server : Server) (e : JSError) :
  server (Index.request a) = Throw e ->
  server (Part000.request a) = Throw e ->
  Index.main a server empty_world = (Throw e, empty_world)
  /\ Index.script a env server = {| heap := []; console := [Error e] |}
  /\ Part000.main a server empty_world = (Throw e, empty_world)
  /\ Part000.script a env server = {| heap := []; console := [Error e] |}.
Proof.
  intros HI HP.
  assert (Index.main a server empty_world = (Throw e, empty_world)) as HmI.
  { unfold Index.main, client_request, bind. by rewrite HI. }
  assert (Part000.main a server empty_world = (Throw e, empty_world)) as HmP.
  { unfold Part000.main, client_request, bind. by rewrite HP. }
  repeat split; try done.
  - unfold Index.script, catch. by rewrite HmI.
  - unfold Part000.script, catch. by rewrite HmP.
Qed.

Lemma X4_rejected_request_prints_only_the_error_witness :
  Index.script sample_args sample_env (auth_server sample_nodes)
  = {| heap := []; console := [Error auth_error] |}
  /\ Part000.script sample_args sample_env (auth_server sample_nodes)
     = {| heap := []; console := [Error auth_error] |}.
Proof.
  destruct (X4_rejected_request_prints_only_the_error
              sample_args sample_env (auth_server sample_nodes) auth_error
              eq_refl eq_refl) as (_ & HI & _ & HP).
  by split.
Defined.

Lemma filter_nil_iff {A} (callback : A -> bool) (l : list A) :
  (forall x, x ∈ l -> callback x = false) -> List.filter callback l = [].
Proof.
  induction l as [|x l IH]; intros Hall; [done|].
  simpl. rewrite Hall by by left. apply IH. intros y Hy. apply Hall. by right.
Qed.

(** X5.  A window that leaves no millisecond strictly between its ends (the
    end date at most one millisecond after the start date, or before it)
    selects nothing, whatever was fetched: either script prints Total 0 and
    ends with the [TypeError] of the null read, without any statistic. *)
Theorem X5_window_without_interior_selects_nothing
    (a : args.t) (env : process.env) (server : Server) (nodes : list PullRequest) :
  server (Index.request a) = Normal nodes ->
  server (Part000.request a) = Normal nodes ->
  args.endDate a <= args.startDate a + 1 ->
  List.filter (Index.inWindow (args.startDate a) (args.endDate a)) nodes = []
  /\ List.filter (Part000.inWindow (args.startDate a) (args.endDate a)) nodes = []
  /\ console (Index.script a env server)
     = IndexReport.preamble a [] ++ [Error null_createdAt]
  /\ console (Part000.script a env server)
     = Part000Report.preamble a [] ++ [Error null_createdAt]
  /\ Log [Lit " "; Lit "Total          "; Lit "=>"; Num 0]
     ∈ console (Index.script a env server)
  /\ Log [Lit "  Total           =>"; Num 0]
     ∈ console (Part000.script a env server).
Proof.
  intros HI HP Hwin.
  assert (List.filter (Index.inWindow (args.startDate a) (args.endDate a)) nodes = [])
    as HfI.
  { apply filter_nil_iff. intros pr _.
    destruct (Index.inWindow _ _ pr) eqn:E; [|done].
    apply Index_inWindow_spec in E. lia. }
  assert (List.filter (Part000.inWindow (args.startDate a) (args.endDate a)) nodes = [])
    as HfP.
  { apply filter_nil_iff. intros pr _.
    destruct (Part000.inWindow _ _ pr) eqn:E; [|done].
    apply Part000_inWindow_spec in E. lia. }
  assert (console (Index.script a env server)
          = IndexReport.preamble a [] ++ [Error null_createdAt]) as HcI.
  { unfold Index.script, catch. by rewrite (Index_main_empty a server nodes HI HfI). }
  assert (console (Part000.script a env server)
          = Part000Report.preamble a [] ++ [Error null_createdAt]) as HcP.
  { unfold Part000.script, catch. by rewrite (Part000_main_empty a server nodes HP HfP). }
  split; [done|]. split; [done|]. split; [done|]. split; [done|].
  rewrite HcI, HcP. split; apply list_elem_of_In; simpl; tauto.
Qed.

Lemma X5_window_without_interior_selects_nothing_witness :
  let a := {| args.repoOwner := "wmonk"; args.repoName := "github-stats";
              args.baseBranch := "master";
              args.startDate := 2000; args.endDate := 1000; args.token := None |} in
  List.filter (Index.inWindow 2000 1000) sample_nodes = []
  /\ console (Index.script a sample_env (fun _ => Normal sample_nodes))
     = IndexReport.preamble a [] ++ [Error null_createdAt].
Proof.
  intros a.
  assert (args.endDate a <= args.startDate a + 1) as Hwin by (simpl; lia).
  destruct (X5_window_without_interior_selects_nothing
              a sample_env (fun _ => Normal sample_nodes) sample_nodes
              eq_refl eq_refl Hwin) as (Hf & _ & Hc & _).
  split; [exact Hf|exact Hc].
Defined.

(** ** The date filter as a selection *)

Lemma List_filter_sublist {A} (callback : A -> bool) (l : list A) :
  List.filter callback l `sublist_of` l.
Proof.
  induction l as [|x l IH]; simpl; [constructor|].
  destruct (callback x); by constructor.
Qed.

Lemma List_filter_idemp {A} (callback : A -> bool) (l : list A) :
  List.filter callback (List.filter callback l) = List.filter callback l.
Proof.
  induction l as [|x l IH]; simpl; [done|].
  destruct (callback x) eqn:E; [|done]. simpl. by rewrite E, IH.
Qed.

Lemma List_filter_weaken {A} (f g : A -> bool) (l : list A) :
  (forall x, f x = true -> g x = true) ->
  List.filter f l `sublist_of` List.filter g l.
Proof.
  intros Hfg. induction l as [|x l IH]; simpl; [constructor|].
  destruct (f x) eqn:Ef.
  - rewrite (Hfg x Ef). by constructor.
  - destruct (g x); [by constructor|done].
Qed.

(** X6.  The filtered list is a subsequence of the fetched list: pull requests
    are neither added, repeated nor reordered, so Total never exceeds the
    number of fetched nodes; filtering it once more with the same window
    changes nothing; and a window that contains another keeps, in the same
    order, everything the inner window keeps.  Both scripts. *)
Theorem X6_date_filter_selects_a_subsequence
    (nodes : list PullRequest) (startDate endDate startDate' endDate' : timestamp) :
  startDate' <= startDate ->
  endDate <= endDate' ->
  let kept := List.filter (Index.inWindow startDate endDate) nodes in
  let kept0 := List.filter (Part000.inWindow startDate endDate) nodes in
  kept `sublist_of` nodes
  /\ kept0 `sublist_of` nodes
  /\ (length kept <= length nodes)%nat
  /\ (length kept0 <= length nodes)%nat
  /\ List.filter (Index.inWindow startDate endDate) kept = kept
  /\ List.filter (Part000.inWindow startDate endDate) kept0 = kept0
  /\ kept `sublist_of` List.filter (Index.inWindow startDate' endDate') nodes
  /\ kept0 `sublist_of` List.filter (Part000.inWindow startDate' endDate') nodes.
Proof.
  intros Hs He kept kept0. subst kept kept0.
  repeat split.
  - apply List_filter_sublist.
  - apply List_filter_sublist.
  - apply sublist_length, List_filter_sublist.
  - apply sublist_length, List_filter_sublist.
  - apply List_filter_idemp.
  - apply List_filter_idemp.
  - apply List_filter_weaken. intros pr.
    rewrite !Index_inWindow_spec. lia.
  - apply List_filter_weaken. intros pr.
    rewrite !Part000_inWindow_spec. lia.
Qed.

Lemma X6_date_filter_selects_a_subsequence_witness :
  List.filter (Index.inWindow 1000 1450) sample_nodes
  `sublist_of` List.filter (Index.inWindow 1000 2000) sample_nodes
  /\ List.filter (Index.inWindow 1000 1450) sample_nodes = [pr_ 2 "b" 1200 1400].
Proof.
  assert (1000 <= 1000) as Hs by lia.
  assert (1450 <= 2000) as He by lia.
  destruct (X6_date_filter_selects_a_subsequence sample_nodes 1000 1450 1000 2000 Hs He)
    as (_ & _ & _ & _ & _ & _ & Hsub & _).
  split; [exact Hsub|reflexivity].
Defined.

(** ** The listing *)

Lemma prBlock_output (f : list PullRequest) :
  block_output (IndexReport.prBlock f)
  = [Log [Lit ""]; Log [Lit "Pull requests:"]]
    ++ map (fun pr =>
              Log [Lit " "; Lit (title pr);
                   Concat (Lit "- ") (Distance (Fin (inject_Z (openTime pr))) None);
                   hash (number pr)])
           f
    ++ [Log [Lit ""]].
Proof.
  unfold block_output. cbn [IndexReport.prBlock t lines emptyLines map].
  by rewrite map_map.
Qed.

(** X7.  In every answered run of index.js the block "Pull requests" lists the
    pull requests of the window, each once, in ascending order of open
    duration, one line for each (title, duration, number); the Total printed
    before it is the number of these lines. *)
Theorem X7_listing_is_sorted_by_open_duration
    (a : args.t) (env : process.env) (server : Server) (nodes : list PullRequest) :
  server (Index.request a) = Normal nodes ->
  let prs := List.filter (Index.inWindow (args.startDate a) (args.endDate a)) nodes in
  exists f before after,
    f ≡ₚ prs
    /\ Sorted (key_le openTime) f
    /\ Log [Lit " "; Lit "Total          "; Lit "=>"; Num (Z.of_nat (length f))]
       ∈ before
    /\ console (Index.script a env server)
       = before
         ++ [Log [Lit ""]; Log [Lit "Pull requests:"]]
         ++ map (fun pr =>
                   Log [Lit " "; Lit (title pr);
                        Concat (Lit "- ") (Distance (Fin (inject_Z (openTime pr))) None);
                        hash (number pr)])
                f
         ++ [Log [Lit ""]]
         ++ after.
Proof.
  intros Hs prs.
  destruct (Index_console_preamble a env server nodes Hs) as [rest ->]. fold prs.
  exists (Array_sort Index.byOpenTime prs).
  exists (block_output (IndexReport.infoBlock a (Z.of_nat (length prs)))).
  exists (block_output (IndexReport.authorBlock (authorRows prs)) ++ rest).
  split; [apply Array_sort_Permutation|].
  split; [apply (Array_sort_Sorted openTime)|].
  split; [rewrite Array_sort_length; apply list_elem_of_In; simpl; tauto|].
  unfold IndexReport.preamble. rewrite prBlock_output.
  rewrite <- !app_assoc. reflexivity.
Qed.

Lemma X7_listing_is_sorted_by_open_duration_witness :
  exists f before after,
    f ≡ₚ List.filter (Index.inWindow 1000 2000) sample_nodes
    /\ Sorted (key_le openTime) f
    /\ Log [Lit " "; Lit "Total          "; Lit "=>"; Num (Z.of_nat (length f))]
       ∈ before
    /\ console (Index.script sample_args sample_env (fun _ => Normal sample_nodes))
       = before
         ++ [Log [Lit ""]; Log [Lit "Pull requests:"]]
         ++ map (fun pr =>
                   Log [Lit " "; Lit (title pr);
                        Concat (Lit "- ") (Distance (Fin (inject_Z (openTime pr))) None);
                        hash (number pr)])
                f
         ++ [Log [Lit ""]]
         ++ after.
Proof.
  exact (X7_listing_is_sorted_by_open_duration
           sample_args sample_env (fun _ => Normal sample_nodes) sample_nodes eq_refl).
Defined.

(** ** Mean and median between the extremes *)

Lemma shortest_lower_bound (prs : list PullRequest) (s : PullRequest) :
  shortest prs = Some s -> Forall (fun q => openTime s <= openTime q) prs.
Proof.
  intros Hs. destruct prs as [|p prs]; [done|].
  destruct (shortest_first (p :: prs)) as (before & s' & after & Heq & Hs' & Hb & Ha);
    [done|].
  rewrite Hs in Hs'. injection Hs' as <-. rewrite Heq.
  apply Forall_app. split.
  - eapply Forall_impl; [exact Hb|]. simpl. intros q. lia.
  - constructor; [lia|done].
Qed.

Lemma longest_upper_bound (prs : list PullRequest) (l : PullRequest) :
  longest prs = Some l -> Forall (fun q => openTime q <= openTime l) prs.
Proof.
  intros Hl. destruct prs as [|p prs]; [done|].
  destruct (longest_first (p :: prs)) as (before & l' & after & Heq & Hl' & Hb & Ha);
    [done|].
  rewrite Hl in Hl'. injection Hl' as <-. rewrite Heq.
  apply Forall_app. split.
  - eapply Forall_impl; [exact Hb|]. simpl. intros q. lia.
  - constructor; [lia|done].
Qed.

Lemma sum_bounds (values : list Z) (lo hi : Z) :
  Forall (fun v => lo <= v <= hi) values ->
  lo * Z.of_nat (length values) <= foldr Z.add 0 values
  <= hi * Z.of_nat (length values).
Proof.
  induction 1 as [|v values Hv Hall IH]; simpl length; simpl foldr; [lia|].
  rewrite Nat2Z.inj_succ. lia.
Qed.

Lemma quotient_bounds (q : Q) (sum n lo hi : Z) :
  0 < n ->
  (q == inject_Z sum / inject_Z n)%Q ->
  lo * n <= sum <= hi * n ->
  (inject_Z lo <= q /\ q <= inject_Z hi)%Q.
Proof.
  intros Hn Hq [Hlo Hhi].
  assert (0 < inject_Z n)%Q as Hn' by (rewrite (Zlt_Qlt 0 n) in Hn; exact Hn).
  rewrite Hq. split.
  - apply Qle_shift_div_l; [done|].
    rewrite <- inject_Z_mult. by rewrite <- Zle_Qle.
  - apply Qle_shift_div_r; [done|].
    rewrite <- inject_Z_mult. by rewrite <- Zle_Qle.
Qed.

Lemma durations_between (prs : list PullRequest) (s l : PullRequest) :
  shortest prs = Some s -> longest prs = Some l ->
  Forall (fun v => openTime s <= v <= openTime l) (map openTime prs).
Proof.
  intros Hs Hl. apply Forall_fmap, Forall_forall. intros q Hq. simpl.
  pose proof (shortest_lower_bound prs s Hs) as Hlo.
  pose proof (longest_upper_bound prs l Hl) as Hhi.
  rewrite Forall_forall in Hlo, Hhi. split; [by apply Hlo|by apply Hhi].
Qed.

(** X8.  For every non-empty filtered list the mean open duration lies between
    the open duration of the shortest pull request and that of the longest. *)
Theorem X8_mean_between_shortest_and_longest (prs : list PullRequest) :
  prs <> [] ->
  exists s l mean,
    shortest prs = Some s /\ longest prs = Some l /\ meanInMs prs = Fin mean
    /\ (inject_Z (openTime s) <= mean)%Q
    /\ (mean <= inject_Z (openTime l))%Q.
Proof.
  intros Hne.
  destruct (selected_Some prs Hne) as (s & l & Hs & Hl).
  destruct (meanInMs_spec prs Hne) as (mean & Hmean & Hq).
  exists s, l, mean. split; [done|]. split; [done|]. split; [done|].
  apply (quotient_bounds mean (foldr Z.add 0 (map openTime prs))
           (Z.of_nat (length prs))).
  - destruct prs; simpl; [done|lia].
  - exact Hq.
  - rewrite <- (length_map openTime prs).
    apply sum_bounds. by apply durations_between.
Qed.

Lemma X8_mean_between_shortest_and_longest_witness :
  exists s l mean,
    shortest sample_corrupt = Some s /\ longest sample_corrupt = Some l
    /\ meanInMs sample_corrupt = Fin mean
    /\ (inject_Z (openTime s) <= mean)%Q
    /\ (mean <= inject_Z (openTime l))%Q.
Proof.
  apply X8_mean_between_shortest_and_longest. discriminate.
Defined.

Lemma median_between (values : list Z) (lo hi : Z) :
  values <> [] ->
  Forall (fun v => lo <= v <= hi) values ->
  exists med,
    median values = Fin med /\ (inject_Z lo <= med)%Q /\ (med <= inject_Z hi)%Q.
Proof.
  intros Hne Hall.
  set (sorted := Array_sort (fun a b => a - b) values).
  assert (forall i v, sorted !! i = Some v -> lo <= v <= hi) as Hin.
  { intros i v Hv. apply list_elem_of_lookup_2 in Hv.
    unfold sorted in Hv. rewrite Array_sort_Permutation in Hv.
    rewrite Forall_forall in Hall. by apply Hall. }
  assert (length values <> 0)%nat as Hpos by by destruct values.
  assert (length values / 2 < length sorted)%nat as Hhalf
    by (unfold sorted; rewrite Array_sort_length; apply Nat.div_lt; lia).
  destruct (lookup_lt_is_Some_2 _ _ Hhalf) as [b Hb].
  destruct (Nat.odd (length values)) eqn:Hodd.
  - exists (inject_Z b). split; [by apply median_odd|].
    destruct (Hin _ _ Hb). split; by rewrite <- Zle_Qle.
  - assert (length values / 2 - 1 < length sorted)%nat as Hprev by lia.
    destruct (lookup_lt_is_Some_2 _ _ Hprev) as [a Ha].
    destruct (divide_nonzero (a + b) 2) as (q & Hq & Hmul); [done|].
    exists q. split.
    + rewrite <- Hq. apply median_even; try done.
      rewrite <- Nat.negb_odd. by rewrite Hodd.
    + destruct (Hin _ _ Ha), (Hin _ _ Hb).
      apply (quotient_bounds q (a + b) 2); [lia| |lia].
      rewrite <- Hmul. field.
Qed.

(** X9.  For every non-empty filtered list the median open duration lies
    between the open duration of the shortest pull request and that of the
    longest. *)
Theorem X9_median_between_shortest_and_longest (prs : list PullRequest) :
  prs <> [] ->
  exists s l med,
    shortest prs = Some s /\ longest prs = Some l
    /\ median (map openTime prs) = Fin med
    /\ (inject_Z (openTime s) <= med)%Q
    /\ (med <= inject_Z (openTime l))%Q.
Proof.
  intros Hne.
  destruct (selected_Some prs Hne) as (s & l & Hs & Hl).
  destruct (median_between (map openTime prs) (openTime s) (openTime l))
    as (med & Hmed & Hlo & Hhi).
  - by destruct prs.
  - by apply durations_between.
  - by exists s, l, med.
Qed.

Lemma X9_median_between_shortest_and_longest_witness :
  exists s l med,
    shortest sample_durations = Some s /\ longest sample_durations = Some l
    /\ median (map openTime sample_durations) = Fin med
    /\ (inject_Z (openTime s) <= med)%Q
    /\ (med <= inject_Z (openTime l))%Q.
Proof.
  apply X9_median_between_shortest_and_longest. discriminate.
Defined.

(** ** Order of the input *)

Lemma sum_Permutation (l l' : list Z) :
  l ≡ₚ l' -> foldr Z.add 0 l = foldr Z.add 0 l'.
Proof. induction 1; simpl; lia. Qed.

Lemma median_Permutation (values values' : list Z) :
  values ≡ₚ values' -> median values = median values'.
Proof.
  intros Hp. unfold median.
  assert (Array_sort (fun a b => a - b) values
          = Array_sort (fun a b => a - b) values') as ->; [|done].
  apply sort_numbers_unique; [apply sort_numbers_Sorted|].
  by rewrite Array_sort_Permutation.
Qed.

(** X10.  Total, mean and median do not depend on the order of the filtered
    list: two lists with the same pull requests in any order give the same
    three values. *)
Theorem X10_mean_and_median_ignore_order (prs prs' : list PullRequest) :
  prs ≡ₚ prs' ->
  total prs = total prs'
  /\ meanInMs prs = meanInMs prs'
  /\ median (map openTime prs) = median (map openTime prs').
Proof.
  intros Hp.
  assert (total prs = total prs') as Ht.
  { rewrite !total_sum. apply sum_Permutation. by apply Permutation_map. }
  split; [done|]. split.
  - unfold meanInMs. rewrite Ht. by rewrite (Permutation_length Hp).
  - apply median_Permutation. by apply Permutation_map.
Qed.

Lemma X10_mean_and_median_ignore_order_witness :
  total sample_durations = total (rev sample_durations)
  /\ meanInMs sample_durations = meanInMs (rev sample_durations)
  /\ median (map openTime sample_durations)
     = median (map openTime (rev sample_durations)).
Proof.
  apply X10_mean_and_median_ignore_order. apply Permutation_rev.
Defined.

(** ** The author counts add up *)

Lemma index_split_Permutation (ks : list string) :
  filter (fun k => isArrayIndex k = true) ks
  ++ filter (fun k => isArrayIndex k = false) ks ≡ₚ ks.
Proof.
  induction ks as [|k ks IH]; [done|].
  rewrite !filter_cons. destruct (isArrayIndex k) eqn:E.
  - rewrite decide_True, decide_False by done. simpl. by rewrite IH.
  - rewrite decide_False, decide_True by done.
    rewrite <- Permutation_middle. by rewrite IH.
Qed.

Lemma ownKeys_Permutation (o : JSObject) : ownKeys o ≡ₚ map fst o.
Proof.
  unfold ownKeys. rewrite Array_sort_Permutation. apply index_split_Permutation.
Qed.

Lemma sum_split (g : string -> Z) (ks : list string) (x : string) :
  NoDup ks ->
  foldr Z.add 0 (map g ks)
  = (if decide (x ∈ ks) then g x else 0)
    + foldr Z.add 0 (map g (filter (fun k => k <> x) ks)).
Proof.
  induction 1 as [|k ks Hk Hnd IH]; [done|].
  rewrite filter_cons. simpl. rewrite IH.
  destruct (decide (k <> x)) as [Hne|Heq].
  - simpl. destruct (decide (x ∈ ks)) as [Hin|Hnin].
    + rewrite (decide_True (P := x ∈ k :: ks)) by by right. lia.
    + rewrite (decide_False (P := x ∈ k :: ks)); [lia|].
      rewrite elem_of_cons. by intros [?|?].
  - apply dec_stable in Heq. subst k.
    rewrite (decide_True (P := x ∈ x :: ks)) by by left.
    rewrite (decide_False (P := x ∈ ks)) by done. lia.
Qed.

Lemma occurrences_cons (k x : string) (l : list string) :
  occurrences k (x :: l) = (if decide (x = k) then 1 else 0) + occurrences k l.
Proof.
  unfold occurrences. rewrite filter_cons.
  destruct (decide (x = k)); simpl length; lia.
Qed.

Lemma sum_occurrences (l : list string) :
  foldr Z.add 0 (map (fun k => occurrences k l) (firstSeen l)) = Z.of_nat (length l).
Proof.
  induction l as [|x l IH]; [done|].
  cbn [firstSeen map foldr length]. rewrite Nat2Z.inj_succ, <- IH.
  rewrite (sum_split (fun k => occurrences k l) (firstSeen l) x)
    by apply firstSeen_NoDup.
  rewrite occurrences_cons, decide_True by done.
  assert (map (fun k => occurrences k (x :: l)) (filter (fun k => k <> x) (firstSeen l))
          = map (fun k => occurrences k l) (filter (fun k => k <> x) (firstSeen l)))
    as ->.
  { apply map_ext_in. intros k Hk. apply list_elem_of_In, list_elem_of_filter in Hk.
    destruct Hk as [Hne _]. rewrite occurrences_cons, decide_False by done. lia. }
  destruct (decide (x ∈ firstSeen l)) as [Hin|Hnin]; [lia|].
  rewrite firstSeen_elem_of in Hnin. rewrite (occurrences_absent x l Hnin). lia.
Qed.

(** X11.  When no login is the name of an inherited property, the count by
    author has one row for each distinct login, every count is at least 1, and
    the counts add up to Total, the number of pull requests of the window. *)
Theorem X11_author_counts_add_up_to_total (prs : list PullRequest) :
  Forall (fun k => k ∉ Object_prototype) (logins prs) ->
  exists counts,
    map snd (authorRows prs) = map Cnt counts
    /\ Forall (fun n => 1 <= n) counts
    /\ foldr Z.add 0 counts = Z.of_nat (length prs)
    /\ length (authorRows prs) = length (firstSeen (logins prs)).
Proof.
  intros Hall.
  destruct (authorRows_spec prs Hall) as (Hrows & _ & Hkeys & _).
  assert (keys (authors prs) ≡ₚ firstSeen (logins prs)) as Hperm.
  { unfold keys. rewrite ownKeys_Permutation, (authors_entries prs Hall).
    by rewrite entries_keys. }
  exists (map (fun k => occurrences k (logins prs)) (keys (authors prs))).
  rewrite Hrows. repeat split.
  - by rewrite !map_map.
  - apply Forall_fmap, Forall_forall. intros k Hk. simpl.
    apply Hkeys in Hk. pose proof (occurrences_pos k _ Hk). lia.
  - rewrite (sum_Permutation _ (map (fun k => occurrences k (logins prs))
                                    (firstSeen (logins prs))))
      by by apply Permutation_map.
    rewrite sum_occurrences. unfold logins. by rewrite length_map.
  - rewrite length_map. by apply Permutation_length.
Qed.

Lemma X11_author_counts_add_up_to_total_witness :
  exists counts,
    map snd (authorRows sample_durations) = map Cnt counts
    /\ Forall (fun n => 1 <= n) counts
    /\ foldr Z.add 0 counts = 4
    /\ length (authorRows sample_durations) = 3%nat.
Proof.
  assert (Forall (fun k => k ∉ Object_prototype) (logins sample_durations)) as Hall.
  { repeat constructor; apply (bool_decide_unpack _); reflexivity. }
  exact (X11_author_counts_add_up_to_total sample_durations Hall).
Defined.

(** ** The count by author on every input *)

Lemma getOwnProperty_properties (f : string -> Count) (ks : list string) (k : string) :
  getOwnProperty (properties f ks) k = if decide (k ∈ ks) then Some (f k) else None.
Proof.
  induction ks as [|a ks IH]; [done|].
  cbn [properties map getOwnProperty]. fold (properties f ks).
  destruct (String.eqb_spec a k) as [->|Hne].
  - rewrite decide_True; [done|]. by left.
  - rewrite IH. destruct (decide (k ∈ ks)) as [Hin|Hnin].
    + rewrite decide_True; [done|]. by right.
    + rewrite decide_False; [done|]. rewrite elem_of_cons. by intros [?|?].
Qed.

Lemma properties_ext (f g : string -> Count) (ks : list string) :
  (forall k, k ∈ ks -> f k = g k) -> properties f ks = properties g ks.
Proof.
  intros Hfg. unfold properties. apply map_ext_in. intros k Hk.
  by rewrite Hfg by by apply list_elem_of_In.
Qed.

Lemma updateOwnProperty_properties (f g : string -> Count) (ks : list string) (k : string) :
  NoDup ks ->
  (forall k', k' ∈ ks -> k' <> k -> f k' = g k') ->
  updateOwnProperty (properties f ks) k (g k) = properties g ks.
Proof.
  intros Hnd Hfg. induction Hnd as [|a ks Ha Hnd IH]; simpl; [done|].
  destruct (String.eqb_spec a k) as [->|Hne].
  - f_equal. apply properties_ext. intros k' Hk'. apply Hfg; [by right|].
    intros ->. done.
  - rewrite Hfg by (by left || done). f_equal. fold (properties f ks).
    apply IH. intros k' Hk'. apply Hfg. by right.
Qed.

Lemma properties_snoc (f : string -> Count) (ks : list string) (k : string) :
  properties f (ks ++ [k]) = properties f ks ++ [(k, f k)].
Proof. unfold properties. by rewrite map_app. Qed.

Lemma listed_elem_of (l : list string) (k : string) :
  k ∈ listed l <-> k ∈ l /\ k <> "__proto__"%string.
Proof. unfold listed. rewrite list_elem_of_filter, firstSeen_elem_of. tauto. Qed.

Lemma listed_NoDup (l : list string) : NoDup (listed l).
Proof. apply NoDup_filter, firstSeen_NoDup. Qed.

Lemma listed_snoc (l : list string) (k : string) :
  listed (l ++ [k])
  = if decide (k ∈ l \/ k = "__proto__"%string) then listed l else listed l ++ [k].
Proof.
  unfold listed. rewrite firstSeen_snoc.
  destruct (decide (k ∈ l)) as [Hin|Hnin].
  - rewrite decide_True; [done|]. by left.
  - rewrite filter_app, filter_cons, filter_nil.
    destruct (decide (k <> "__proto__"%string)) as [Hne|Heq].
    + rewrite decide_False; [done|]. by intros [?|?].
    + apply dec_stable in Heq. rewrite decide_True by by right.
      by rewrite app_nil_r.
Qed.

Lemma countValue_other (k k' : string) (l : list string) :
  k' <> k -> countValue k' (l ++ [k]) = countValue k' l.
Proof.
  intros Hne. unfold countValue.
  rewrite occurrences_snoc, decide_False by (intros ->; done).
  by rewrite Z.add_0_r.
Qed.

Lemma proto_inherited : "__proto__"%string ∈ Object_prototype.
Proof. apply (bool_decide_unpack _). reflexivity. Qed.

(** The value the next occurrence of a login stores, from the one found. *)
Lemma countValue_again (k : string) (l : list string) :
  k ∈ l ->
  (if truthy (Own (countValue k l)) then increment (Own (countValue k l)) else Cnt 1)
  = countValue k (l ++ [k]).
Proof.
  intros Hkl. pose proof (occurrences_pos k l Hkl) as Hpos.
  unfold countValue. rewrite occurrences_snoc, decide_True by done.
  destruct (bool_decide (k ∈ Object_prototype)).
  - destruct (Z.eqb_spec (occurrences k l) 1) as [H1|H1].
    + rewrite H1. reflexivity.
    + simpl. destruct (Z.eqb_spec (occurrences k l - 1) 0); [lia|]. simpl.
      destruct (Z.eqb_spec (occurrences k l + 1) 1); [lia|]. f_equal. lia.
  - simpl. by destruct (Z.eqb_spec (occurrences k l) 0); [lia|].
Qed.

Lemma countValue_first (k : string) (l : list string) :
  k ∉ l ->
  let found := if bool_decide (k ∈ Object_prototype) then Inherited else Undefined in
  (if truthy found then increment found else Cnt 1) = countValue k (l ++ [k]).
Proof.
  intros Hkl. unfold countValue.
  rewrite occurrences_snoc, decide_True, occurrences_absent by done.
  by destruct (bool_decide (k ∈ Object_prototype)).
Qed.

(** After any logins, the object holds [countValue] under each listed login,
    in order of first occurrence. *)
Lemma authors_properties (prs : list PullRequest) :
  authors prs
  = properties (fun k => countValue k (logins prs)) (listed (logins prs)).
Proof.
  unfold authors, Array_reduce.
  induction prs as [|pr prs IH] using rev_ind; [done|].
  unfold logins in *. rewrite map_app. simpl map.
  rewrite fold_left_app. simpl fold_left. rewrite IH. clear IH.
  set (l := map (fun pr => login (author pr)) prs).
  set (k := login (author pr)).
  set (o := properties (fun k0 => countValue k0 l) (listed l)).
  assert (forall ks, (forall k', k' ∈ ks -> k' <> k) ->
            properties (fun k0 => countValue k0 l) ks
            = properties (fun k0 => countValue k0 (l ++ [k])) ks) as Hsame.
  { intros ks Hks. apply properties_ext. intros k' Hk'.
    symmetry. apply countValue_other. by apply Hks. }
  pose proof (getOwnProperty_properties (fun k0 => countValue k0 l) (listed l) k)
    as Hget.
  fold o in Hget.
  unfold countAuthor. fold k. unfold Get, Set_. rewrite listed_snoc.
  destruct (decide (k ∈ listed l)) as [Hin|Hnin]; rewrite !Hget.
  - (* a login seen before, and not [__proto__] *)
    apply listed_elem_of in Hin as Hin'. destruct Hin' as [Hkl Hnp].
    rewrite decide_True by by left.
    assert (updateOwnProperty o k (countValue k (l ++ [k]))
            = properties (fun k0 => countValue k0 (l ++ [k])) (listed l)) as Hupd.
    { unfold o.
      apply (updateOwnProperty_properties _ (fun k0 => countValue k0 (l ++ [k])));
        [apply listed_NoDup|].
      intros k' _ Hne. symmetry. by apply countValue_other. }
    rewrite <- Hupd, <- (countValue_again k l Hkl).
    by destruct (truthy (Own (countValue k l))).
  - (* a first occurrence, or [__proto__] *)
    assert (forall k', k' ∈ listed l -> k' <> k) as Hfresh
      by (intros k' Hk' ->; done).
    destruct (String.eqb_spec k "__proto__") as [Hp|Hnp].
    + rewrite decide_True by by right.
      rewrite bool_decide_eq_true_2 by (rewrite Hp; apply proto_inherited).
      simpl. by apply Hsame.
    + assert (k ∉ l) as Hkl
        by (intros Hkl; apply Hnin; by apply listed_elem_of).
      rewrite decide_False by (by intros [?|?]).
      rewrite properties_snoc, <- (Hsame _ Hfresh). fold o.
      rewrite <- (countValue_first k l Hkl). simpl.
      by destruct (bool_decide (k ∈ Object_prototype)).
Qed.

Lemma authorRows_countValue (prs : list PullRequest) :
  authorRows prs
  = map (fun k => (k, countValue k (logins prs))) (keys (authors prs)).
Proof.
  rewrite authorRows_values. apply map_ext_in. intros k Hk.
  apply list_elem_of_In in Hk. unfold keys in Hk.
  rewrite ownKeys_elem_of, authors_properties in Hk.
  unfold properties in Hk. rewrite map_map, map_id in Hk.
  rewrite authors_properties, getOwnProperty_properties.
  by rewrite decide_True.
Qed.

Lemma authorRows_keys (prs : list PullRequest) :
  map fst (authorRows prs) = keys (authors prs).
Proof. rewrite authorRows_countValue, map_map. apply map_id. Qed.

(** X12.  On every filtered list the count by author has exactly one row for
    each distinct login other than [__proto__], which gets none.  A login that
    is not the name of an inherited property is shown with the number of its
    pull requests; a login that is one ([constructor], [toString], ...) is
    shown with [NaN] when it has one pull request and with one less than their
    number otherwise. *)
Theorem X12_author_rows_on_every_input (prs : list PullRequest) :
  NoDup (map fst (authorRows prs))
  /\ (forall k,
        k ∈ map fst (authorRows prs)
        <-> k ∈ logins prs /\ k <> "__proto__"%string)
  /\ (forall k c,
        (k, c) ∈ authorRows prs ->
        (k ∉ Object_prototype -> c = Cnt (occurrences k (logins prs)))
        /\ (k ∈ Object_prototype -> occurrences k (logins prs) = 1 -> c = CntNaN)
        /\ (k ∈ Object_prototype -> occurrences k (logins prs) <> 1 ->
            c = Cnt (occurrences k (logins prs) - 1))).
Proof.
  assert (map fst (authors prs) = listed (logins prs)) as Hfst.
  { rewrite authors_properties. unfold properties. rewrite map_map. apply map_id. }
  split; [|split].
  - rewrite authorRows_keys. apply ownKeys_NoDup. rewrite Hfst. apply listed_NoDup.
  - intros k. rewrite authorRows_keys. unfold keys.
    rewrite ownKeys_elem_of, Hfst. apply listed_elem_of.
  - intros k c Hin. rewrite authorRows_countValue in Hin.
    apply list_elem_of_In, in_map_iff in Hin. destruct Hin as (k' & Heq & _).
    injection Heq as -> <-. unfold countValue.
    destruct (bool_decide (k ∈ Object_prototype)) eqn:E.
    + apply bool_decide_eq_true_1 in E. repeat split; try done.
      * intros _ ->. reflexivity.
      * intros _ Hne. by destruct (Z.eqb_spec (occurrences k (logins prs)) 1).
    + apply bool_decide_eq_false_1 in E. repeat split; done.
Qed.

(** ** The outcomes of a run *)






(** ** The two scripts on one answer *)

Lemma List_filter_ext_in {A} (f g : A -> bool) (l : list A) :
  (forall x, x ∈ l -> f x = g x) -> List.filter f l = List.filter g l.
Proof.
  induction l as [|x l IH]; intros Hfg; [done|].
  simpl. rewrite (Hfg x) by by left.
  rewrite IH; [done|]. intros y Hy. apply Hfg. by right.
Qed.

(** X15.  The scripts differ in the timestamp they filter on.  On an answer in
    which no pull request has one of its two timestamps inside the window and
    the other outside, they select the same list, and so show the same Total,
    shortest, longest and mean. *)
Theorem X15_scripts_agree_when_no_pull_request_straddles
    (a : args.t) (env : process.env) (server : Server) (nodes : list PullRequest) :
  server (Index.request a) = Normal nodes ->
  server (Part000.request a) = Normal nodes ->
  (forall node, node ∈ nodes ->
     (args.startDate a < mergedAt node < args.endDate a
      <-> args.startDate a < createdAt node < args.endDate a)) ->
  let prs := List.filter (Index.inWindow (args.startDate a) (args.endDate a)) nodes in
  List.filter (Part000.inWindow (args.startDate a) (args.endDate a)) nodes = prs
  /\ (prs <> [] ->
      exists s l p,
        console (Index.script a env server) = IndexReport.report a prs s l p
        /\ console (Part000.script a env server) = Part000Report.report a prs s l).
Proof.
  intros HI HP Hsame prs.
  assert (List.filter (Part000.inWindow (args.startDate a) (args.endDate a)) nodes = prs)
    as Heq.
  { subst prs. apply List_filter_ext_in. intros node Hin.
    specialize (Hsame node Hin).
    destruct (Part000.inWindow _ _ node) eqn:EP, (Index.inWindow _ _ node) eqn:EI;
      try done.
    - apply Part000_inWindow_spec, Hsame, Index_inWindow_spec in EP. congruence.
    - apply Index_inWindow_spec, Hsame, Part000_inWindow_spec in EI. congruence. }
  split; [done|]. intros Hne.
  destruct (selected_Some prs Hne) as (s & l & Hsh & Hlo).
  destruct (p90_member prs Hne) as (pr & _ & Hp).
  exists s, l, {| tagged_pr := pr; tagged_openTime := openTime pr |}. split.
  - by apply Index_script_console.
  - rewrite <- Heq in Hsh, Hlo |- *. by apply Part000_script_console.
Qed.

Lemma X15_scripts_agree_when_no_pull_request_straddles_witness :
  List.filter (Part000.inWindow 1000 2000) sample_nodes
  = List.filter (Index.inWindow 1000 2000) sample_nodes.
Proof.
  assert (forall node, node ∈ sample_nodes ->
            (args.startDate sample_args < mergedAt node < args.endDate sample_args
             <-> args.startDate sample_args < createdAt node < args.endDate sample_args))
    as Hsame.
  { intros node Hin. apply list_elem_of_In in Hin. simpl in Hin.
    destruct Hin as [<-|[<-|[<-|[]]]]; simpl; lia. }
  destruct (X15_scripts_agree_when_no_pull_request_straddles
              sample_args sample_env (fun _ => Normal sample_nodes) sample_nodes
              eq_refl eq_refl Hsame) as [Heq _].
  exact Heq.
Defined.
